(** * The github_team resource: create / read / update / delete

    A shallow embedding of [github/resource_github_team.go] and proofs about
    its retry loops, its error paths and the calls it issues.

    The Go functions run against a [*schema.ResourceData] (the local state
    [d]) and a [meta] value holding the REST and GraphQL clients.  Here a
    function body is a computation in a small monad [M]: it threads the local
    state and a call counter, collects the trace of the effects it performs
    (remote calls, sleeps, writes to [d]) and may leave the function early
    through [Return], as a Go [return] inside a loop does.  What the remote
    side answers is a parameter: each client method is a function of the call
    counter and of the arguments of the call.  [log.Printf] is not modelled. *)

From Stdlib Require Import ZArith List Strings.String Strings.Ascii Bool Lia.
From Stdlib Require Import DecimalString DecimalPos.
Import ListNotations.
Local Open Scope string_scope.
Local Open Scope list_scope.
Local Open Scope Z_scope.

(** ** Errors *)

(** [*strconv.NumError.Err]: the two reasons [ParseInt] fails for. *)
Inductive NumErrKind := ErrSyntax | ErrRange.

(** Go's [error] values, by dynamic type.  [ErrorResponse] is
    [*github.ErrorResponse] with the status code of its [Response];
    [NumError] is what [strconv.ParseInt] returns; [UnconvertibleIdErr] is the
    value built by the helper [unconvertibleIdErr(id, err)], which lives in
    another file of the package and is kept here as a tag over its
    arguments; [OtherError] is every other error type (transport failures,
    rate-limit errors, [errors.New] values, ...). *)
Inductive error :=
| ErrorResponse (StatusCode : Z) (Message : string)
| NumError (Num : string) (Err : NumErrKind)
| UnconvertibleIdErr (id : string) (cause : error)
| OtherError (msg : string).

Definition StatusNotModified : Z := 304.
Definition StatusNotFound : Z := 404.

(** [err.( *github.ErrorResponse)]: the type assertion, returning the status
    code when it succeeds. *)
Definition asErrorResponse (e : error) : option Z :=
  match e with
  | ErrorResponse sc _ => Some sc
  | _ => None
  end.

Definition is_status (code : Z) (e : error) : bool :=
  match asErrorResponse e with
  | Some sc => sc =? code
  | None => false
  end.

Definition is_not_found : error -> bool := is_status StatusNotFound.
Definition is_not_modified : error -> bool := is_status StatusNotModified.

(** A value and an error returned together, as [(v, err)] in Go; the code
    under study reads the value only when the error is [nil]. *)
Inductive api_result (A : Type) :=
| ApiOk (a : A)
| ApiErr (e : error).
Arguments ApiOk {A} a.
Arguments ApiErr {A} e.

(** The [err] component of such a pair. *)
Definition err_of {A} (r : api_result A) : option error :=
  match r with
  | ApiOk _ => None
  | ApiErr e => Some e
  end.

(** ** [strconv.ParseInt(s, 10, 64)] and [strconv.FormatInt(n, 10)] *)

Definition maxUint64 : Z := 2 ^ 64 - 1.
Definition uint_cutoff : Z := maxUint64 / 10 + 1.
Definition int_cutoff : Z := 2 ^ 63.

Definition digit_of (c : ascii) : option Z :=
  let n := Z.of_N (N_of_ascii c) in
  if (48 <=? n) && (n <=? 57) then Some (n - 48) else None.

(** The loop of [ParseUint] in base 10: a byte that is not a decimal digit is
    a syntax error, an overflow of the 64-bit accumulator a range error; the
    first of them met ends the loop. *)
Fixpoint ParseUint_loop (s : string) (n : Z) : Z + NumErrKind :=
  match s with
  | EmptyString => inl n
  | String c s' =>
      match digit_of c with
      | None => inr ErrSyntax
      | Some d =>
          if uint_cutoff <=? n then inr ErrRange
          else
            let n1 := n * 10 + d in
            if maxUint64 <? n1 then inr ErrRange else ParseUint_loop s' n1
      end
  end.

Definition ParseUint (s : string) : Z + NumErrKind :=
  match s with
  | EmptyString => inr ErrSyntax
  | _ => ParseUint_loop s 0
  end.

Definition ParseInt (s0 : string) : Z + error :=
  match s0 with
  | EmptyString => inr (NumError s0 ErrSyntax)
  | String c rest =>
      let '(neg, s) :=
        if Ascii.eqb c "+"%char then (false, rest)
        else if Ascii.eqb c "-"%char then (true, rest)
        else (false, s0) in
      match ParseUint s with
      | inr ErrSyntax => inr (NumError s0 ErrSyntax)
      | inr ErrRange => inr (NumError s0 ErrRange)
      | inl un =>
          if negb neg && (int_cutoff <=? un) then inr (NumError s0 ErrRange)
          else if neg && (int_cutoff <? un) then inr (NumError s0 ErrRange)
          else inl (if neg then - un else un)
      end
  end.

Definition FormatInt (n : Z) : string := NilZero.string_of_int (Z.to_int n).

(** ** The data the resource handles *)

(** [github.Team] as the REST client returns it.  Pointer fields are options
    and the [Get...] accessors give the zero value for a nil pointer. *)
Record ParentTeam := { PID : option Z }.

Record Team := {
  ID : option Z;
  Name : option string;
  Description : option string;
  Privacy : option string;
  Parent : option ParentTeam;
  LDAPDN : option string;
  Slug : option string;
  NodeID : option string;
  MembersCount : option Z
}.

Definition zstr (o : option string) : string :=
  match o with Some s => s | None => "" end.
Definition zint (o : option Z) : Z :=
  match o with Some n => n | None => 0 end.

Definition GetID (t : Team) : Z := zint (ID t).
Definition GetName (t : Team) : string := zstr (Name t).
Definition GetDescription (t : Team) : string := zstr (Description t).
Definition GetPrivacy (t : Team) : string := zstr (Privacy t).
Definition GetLDAPDN (t : Team) : string := zstr (LDAPDN t).
Definition GetSlug (t : Team) : string := zstr (Slug t).
Definition GetNodeID (t : Team) : string := zstr (NodeID t).
Definition GetMembersCount (t : Team) : Z := zint (MembersCount t).
Definition ParentGetID (p : ParentTeam) : Z := zint (PID p).

(** [*github.Response]: only the [ETag] header is read. *)
Record Response := { Header_ETag : string }.

(** [github.NewTeam], the body of a create or edit call. *)
Record NewTeam := {
  nt_Name : string;
  nt_Description : option string;
  nt_Privacy : option string;
  nt_ParentTeamID : option Z
}.

(** The two values the code stores in a [context.Context]. *)
Record Context := {
  ctxId : option string;
  ctxEtag : option string
}.

Definition Background : Context := {| ctxId := None; ctxEtag := None |}.
Definition WithId (ctx : Context) (v : string) : Context :=
  {| ctxId := Some v; ctxEtag := ctxEtag ctx |}.
Definition WithEtag (ctx : Context) (v : string) : Context :=
  {| ctxId := ctxId ctx; ctxEtag := Some v |}.

(** [*schema.ResourceData]: the identifier, the new-resource flag and the
    fields of the schema as [d.Get] returns them.  [prior_ldap_dn] is the
    value of [ldap_dn] in the state of the last read, the side
    [d.HasChange] compares the configured value with. *)
Record ResourceData := {
  Id : string;
  IsNewResource : bool;
  name : string;
  description : string;
  privacy : string;
  parent_team_id : string;
  ldap_dn : string;
  create_default_maintainer : bool;
  slug : string;
  etag : string;
  node_id : string;
  members_count : Z;
  prior_ldap_dn : string
}.

Definition with_Id (v : string) (d : ResourceData) : ResourceData :=
  {| Id := v; IsNewResource := IsNewResource d; name := name d;
     description := description d; privacy := privacy d;
     parent_team_id := parent_team_id d; ldap_dn := ldap_dn d;
     create_default_maintainer := create_default_maintainer d;
     slug := slug d; etag := etag d; node_id := node_id d;
     members_count := members_count d; prior_ldap_dn := prior_ldap_dn d |}.

Definition with_name (v : string) (d : ResourceData) : ResourceData :=
  {| Id := Id d; IsNewResource := IsNewResource d; name := v;
     description := description d; privacy := privacy d;
     parent_team_id := parent_team_id d; ldap_dn := ldap_dn d;
     create_default_maintainer := create_default_maintainer d;
     slug := slug d; etag := etag d; node_id := node_id d;
     members_count := members_count d; prior_ldap_dn := prior_ldap_dn d |}.

Definition with_description (v : string) (d : ResourceData) : ResourceData :=
  {| Id := Id d; IsNewResource := IsNewResource d; name := name d;
     description := v; privacy := privacy d;
     parent_team_id := parent_team_id d; ldap_dn := ldap_dn d;
     create_default_maintainer := create_default_maintainer d;
     slug := slug d; etag := etag d; node_id := node_id d;
     members_count := members_count d; prior_ldap_dn := prior_ldap_dn d |}.

Definition with_privacy (v : string) (d : ResourceData) : ResourceData :=
  {| Id := Id d; IsNewResource := IsNewResource d; name := name d;
     description := description d; privacy := v;
     parent_team_id := parent_team_id d; ldap_dn := ldap_dn d;
     create_default_maintainer := create_default_maintainer d;
     slug := slug d; etag := etag d; node_id := node_id d;
     members_count := members_count d; prior_ldap_dn := prior_ldap_dn d |}.

Definition with_parent_team_id (v : string) (d : ResourceData) : ResourceData :=
  {| Id := Id d; IsNewResource := IsNewResource d; name := name d;
     description := description d; privacy := privacy d;
     parent_team_id := v; ldap_dn := ldap_dn d;
     create_default_maintainer := create_default_maintainer d;
     slug := slug d; etag := etag d; node_id := node_id d;
     members_count := members_count d; prior_ldap_dn := prior_ldap_dn d |}.

Definition with_ldap_dn (v : string) (d : ResourceData) : ResourceData :=
  {| Id := Id d; IsNewResource := IsNewResource d; name := name d;
     description := description d; privacy := privacy d;
     parent_team_id := parent_team_id d; ldap_dn := v;
     create_default_maintainer := create_default_maintainer d;
     slug := slug d; etag := etag d; node_id := node_id d;
     members_count := members_count d; prior_ldap_dn := prior_ldap_dn d |}.

Definition with_slug (v : string) (d : ResourceData) : ResourceData :=
  {| Id := Id d; IsNewResource := IsNewResource d; name := name d;
     description := description d; privacy := privacy d;
     parent_team_id := parent_team_id d; ldap_dn := ldap_dn d;
     create_default_maintainer := create_default_maintainer d;
     slug := v; etag := etag d; node_id := node_id d;
     members_count := members_count d; prior_ldap_dn := prior_ldap_dn d |}.

Definition with_etag (v : string) (d : ResourceData) : ResourceData :=
  {| Id := Id d; IsNewResource := IsNewResource d; name := name d;
     description := description d; privacy := privacy d;
     parent_team_id := parent_team_id d; ldap_dn := ldap_dn d;
     create_default_maintainer := create_default_maintainer d;
     slug := slug d; etag := v; node_id := node_id d;
     members_count := members_count d; prior_ldap_dn := prior_ldap_dn d |}.

Definition with_node_id (v : string) (d : ResourceData) : ResourceData :=
  {| Id := Id d; IsNewResource := IsNewResource d; name := name d;
     description := description d; privacy := privacy d;
     parent_team_id := parent_team_id d; ldap_dn := ldap_dn d;
     create_default_maintainer := create_default_maintainer d;
     slug := slug d; etag := etag d; node_id := v;
     members_count := members_count d; prior_ldap_dn := prior_ldap_dn d |}.

Definition with_members_count (v : Z) (d : ResourceData) : ResourceData :=
  {| Id := Id d; IsNewResource := IsNewResource d; name := name d;
     description := description d; privacy := privacy d;
     parent_team_id := parent_team_id d; ldap_dn := ldap_dn d;
     create_default_maintainer := create_default_maintainer d;
     slug := slug d; etag := etag d; node_id := node_id d;
     members_count := v; prior_ldap_dn := prior_ldap_dn d |}.

(** ** Effects *)

(** What a run does that the outside can see, in the order it happens. *)
Inductive Event :=
| EvGetTeamID (teamIDString : string)
| EvCreateTeam (org : string) (team : NewTeam)
| EvGetTeamByID (ctx : Context) (orgID teamID : Z)
| EvEditTeamByID (ctx : Context) (orgID teamID : Z) (team : NewTeam)
    (removeParent : bool)
| EvDeleteTeamByID (ctx : Context) (orgID teamID : Z)
| EvUpdateTeamLDAPMapping (ctx : Context) (teamID : Z) (ldapDN : string)
| EvQueryMembers (teamSlug login : string)
| EvRemoveTeamMembershipBySlug (org teamSlug user : string)
| EvSleep (seconds : Z)
| EvSetId (v : string)
| EvSet (key : string).

(** The REST client ([v3client]).  The first argument of each method is the
    number of remote calls made before this one, so that an answer may depend
    on when the call is made as well as on what it asks. *)
Record V3Client := {
  Teams_CreateTeam : nat -> string -> NewTeam -> api_result Team;
  Teams_GetTeamByID : nat -> Context -> Z -> Z -> api_result (Team * Response);
  Teams_EditTeamByID :
    nat -> Context -> Z -> Z -> NewTeam -> bool -> api_result Team;
  Teams_DeleteTeamByID : nat -> Context -> Z -> Z -> option error;
  Teams_RemoveTeamMembershipBySlug :
    nat -> string -> string -> string -> option error;
  Admin_UpdateTeamLDAPMapping : nat -> Context -> Z -> string -> option error
}.

(** The GraphQL client ([v4client]): the one query made lists the logins of
    the members of a team. *)
Record V4Client := {
  Query_TeamMembers : nat -> string -> string -> api_result (list string)
}.

(** [*Owner], the [meta] argument.  [org_check] is what the helper
    [checkOrganization(meta)] returns and [getTeamID_answer] what the helper
    [getTeamID(s, meta)] returns at a given call; both helpers live in other
    files of the package and are parameters here. *)
Record Owner := {
  owner_name : string;
  owner_id : Z;
  org_check : option error;
  getTeamID_answer : nat -> string -> api_result Z;
  v3client : V3Client;
  v4client : V4Client
}.

(** The state a run threads: the resource data and the call counter. *)
Record State := {
  st_d : ResourceData;
  st_clock : nat
}.

Definition tick (s : State) : State :=
  {| st_d := st_d s; st_clock := S (st_clock s) |}.
Definition map_d (f : ResourceData -> ResourceData) (s : State) : State :=
  {| st_d := f (st_d s); st_clock := st_clock s |}.

(** How a statement ends: it goes on with a value, it returns from the
    enclosing function, or it panics (a nil pointer is dereferenced). *)
Inductive flow (A : Type) :=
| Next (a : A)
| Return (e : option error)
| Panic.
Arguments Next {A} a.
Arguments Return {A} e.
Arguments Panic {A}.

Definition M (A : Type) : Type := State -> flow A * State * list Event.

Definition pure {A} (a : A) : M A := fun s => (Next a, s, []).
Definition return_ {A} (e : option error) : M A := fun s => (Return e, s, []).
Definition panic {A} : M A := fun s => (Panic, s, []).

Definition bind {A B} (m : M A) (f : A -> M B) : M B :=
  fun s =>
    match m s with
    | (Next a, s1, t1) =>
        match f a s1 with
        | (r, s2, t2) => (r, s2, t1 ++ t2)
        end
    | (Return e, s1, t1) => (Return e, s1, t1)
    | (Panic, s1, t1) => (Panic, s1, t1)
    end.

Notation "x <- m ;; k" := (bind m (fun x => k))
  (at level 61, m at next level, right associativity).
Notation "m ;; k" := (bind m (fun _ => k))
  (at level 61, right associativity).

(** Calling a function: its [return] ends the call, not the caller. *)
Definition call (m : M (option error)) : M (option error) :=
  fun s =>
    match m s with
    | (Next e, s1, t1) => (Next e, s1, t1)
    | (Return e, s1, t1) => (Next e, s1, t1)
    | (Panic, s1, t1) => (Panic, s1, t1)
    end.

(** What the plugin host observes of a whole operation. *)
Inductive Outcome :=
| Returned (e : option error)
| Panicked.

Definition run (m : M (option error)) (s : State)
  : Outcome * State * list Event :=
  match m s with
  | (Next e, s1, t1) => (Returned e, s1, t1)
  | (Return e, s1, t1) => (Returned e, s1, t1)
  | (Panic, s1, t1) => (Panicked, s1, t1)
  end.

(** *** Primitive statements *)

Definition d_Get {A} (field : ResourceData -> A) : M A :=
  fun s => (Next (field (st_d s)), s, []).

(** [d.GetOk(key)] for a string field: the value, and whether it is set to
    something other than the zero value. *)
Definition d_GetOk (field : ResourceData -> string) : M (string * bool) :=
  fun s =>
    let v := field (st_d s) in
    (Next (v, negb (String.eqb v "")), s, []).

Definition d_HasChange (old new : ResourceData -> string) : M bool :=
  fun s => (Next (negb (String.eqb (old (st_d s)) (new (st_d s)))), s, []).

Definition d_Set (key : string) (upd : ResourceData -> ResourceData) : M unit :=
  fun s => (Next tt, map_d upd s, [EvSet key]).

Definition d_SetId (v : string) : M unit :=
  fun s => (Next tt, map_d (with_Id v) s, [EvSetId v]).

Definition time_Sleep (seconds : Z) : M unit :=
  fun s => (Next tt, s, [EvSleep seconds]).

(** A remote call: it is recorded, answered by the remote side for the
    current call number, and counted. *)
Definition remote {A} (ev : Event) (answer : nat -> A) : M A :=
  fun s => (Next (answer (st_clock s)), tick s, [ev]).

(** [for i := 0; i < n; i++ { body }] over a loop-carried value: the body
    either goes to the next iteration ([continue], or falling off its end) or
    leaves the loop ([break]). *)
Inductive ctl (X : Type) :=
| Continue (x : X)
| Break (x : X).
Arguments Continue {X} x.
Arguments Break {X} x.

Fixpoint for_loop {X} (n : nat) (i : Z) (body : Z -> X -> M (ctl X)) (x : X)
  : M X :=
  match n with
  | O => pure x
  | S n' =>
      c <- body i x ;;
      match c with
      | Continue x' => for_loop n' (i + 1) body x'
      | Break x' => pure x'
      end
  end.

Definition for_range {X} (hi : Z) (body : Z -> X -> M (ctl X)) (x : X) : M X :=
  for_loop (Z.to_nat hi) 0 body x.

(** [for _, a := range l { body }] *)
Fixpoint for_each {A} (l : list A) (body : A -> M unit) : M unit :=
  match l with
  | [] => pure tt
  | a :: l' => body a ;; for_each l' body
  end.

(** ** The client calls and helpers of the package *)

Definition checkOrganization (meta : Owner) : M (option error) :=
  pure (org_check meta).

Definition unconvertibleIdErr (id : string) (err : error) : error :=
  UnconvertibleIdErr id err.

Definition getTeamID (teamIDString : string) (meta : Owner) : M (api_result Z) :=
  remote (EvGetTeamID teamIDString)
         (fun n => getTeamID_answer meta n teamIDString).

Definition CreateTeam (c : V3Client) (org : string) (team : NewTeam)
  : M (api_result Team) :=
  remote (EvCreateTeam org team) (fun n => Teams_CreateTeam c n org team).

Definition GetTeamByID (c : V3Client) (ctx : Context) (orgID teamID : Z)
  : M (api_result (Team * Response)) :=
  remote (EvGetTeamByID ctx orgID teamID)
         (fun n => Teams_GetTeamByID c n ctx orgID teamID).

Definition EditTeamByID (c : V3Client) (ctx : Context) (orgID teamID : Z)
    (team : NewTeam) (removeParent : bool) : M (api_result Team) :=
  remote (EvEditTeamByID ctx orgID teamID team removeParent)
         (fun n => Teams_EditTeamByID c n ctx orgID teamID team removeParent).

Definition DeleteTeamByID (c : V3Client) (ctx : Context) (orgID teamID : Z)
  : M (option error) :=
  remote (EvDeleteTeamByID ctx orgID teamID)
         (fun n => Teams_DeleteTeamByID c n ctx orgID teamID).

Definition UpdateTeamLDAPMapping (c : V3Client) (ctx : Context) (teamID : Z)
    (ldapDN : string) : M (option error) :=
  remote (EvUpdateTeamLDAPMapping ctx teamID ldapDN)
         (fun n => Admin_UpdateTeamLDAPMapping c n ctx teamID ldapDN).

Definition RemoveTeamMembershipBySlug (c : V3Client) (org teamSlug user : string)
  : M (option error) :=
  remote (EvRemoveTeamMembershipBySlug org teamSlug user)
         (fun n => Teams_RemoveTeamMembershipBySlug c n org teamSlug user).

Definition QueryTeamMembers (c : V4Client) (teamSlug login : string)
  : M (api_result (list string)) :=
  remote (EvQueryMembers teamSlug login)
         (fun n => Query_TeamMembers c n teamSlug login).

(** ** The resource functions *)

(** The retry count and the wait in seconds, lines 24-25. *)
Definition github_team_api_retry : Z := 10.
Definition github_team_api_wait : Z := 5.

(** [resourceGithubTeamDelete], lines 319-361. *)
Definition resourceGithubTeamDelete (meta : Owner) : M (option error) :=
  err <- checkOrganization meta ;;
  match err with
  | Some e => return_ (Some e)
  | None =>
      let client := v3client meta in
      let orgId := owner_id meta in
      d_id <- d_Get Id ;;
      match ParseInt d_id with
      | inr err => return_ (Some (unconvertibleIdErr d_id err))
      | inl id =>
          let ctx := WithId Background d_id in
          err <- DeleteTeamByID client ctx orgId id ;;
          err <- match err with
                 | Some _ =>
                     r <- GetTeamByID client ctx orgId id ;;
                     let err := err_of r in
                     match err with
                     | Some e =>
                         match asErrorResponse e with
                         | Some sc =>
                             if sc =? StatusNotFound
                             then d_SetId "" ;; return_ None
                             else return_ err
                         | None => return_ err
                         end
                     | None => pure err
                     end
                 | None => pure err
                 end ;;
          return_ err
      end
  end.

(** [removeDefaultMaintainer], lines 363-401. *)
Definition removeDefaultMaintainer (teamSlug : string) (meta : Owner)
  : M (option error) :=
  let client := v3client meta in
  let orgName := owner_name meta in
  let v4 := v4client meta in
  r <- QueryTeamMembers v4 teamSlug orgName ;;
  match r with
  | ApiErr err => return_ (Some err)
  | ApiOk nodes =>
      for_each nodes (fun user =>
        err <- RemoveTeamMembershipBySlug client orgName teamSlug user ;;
        match err with
        | Some e => return_ (Some e)
        | None => pure tt
        end) ;;
      return_ None
  end.

(** The body of the retry loop of Read (lines 193-216), over the
    loop-carried [(team, resp, err)]. *)
Definition read_retry_body (client : V3Client) (ctx : Context) (orgId id : Z)
    (i : Z) (r : api_result (Team * Response))
  : M (ctl (api_result (Team * Response))) :=
  match err_of r with
  | Some err =>
      match asErrorResponse err with
      | Some sc =>
          if sc =? StatusNotModified then return_ None
          else if sc =? StatusNotFound then
            time_Sleep github_team_api_wait ;;
            r' <- GetTeamByID client ctx orgId id ;;
            pure (Continue r')
          else
            time_Sleep github_team_api_wait ;;
            r' <- GetTeamByID client ctx orgId id ;;
            pure (Continue r')
      | None => return_ (Some err)
      end
  | None => pure (Break r)
  end.

(** The end of Read, after the loop (lines 217-246): what is done with the
    last [(team, resp, err)]. *)
Definition read_finish (r : api_result (Team * Response)) : M (option error) :=
  match r with
  | ApiErr err =>
      match asErrorResponse err with
      | Some sc =>
          if sc =? StatusNotModified then return_ None
          else if sc =? StatusNotFound then
            d_SetId "" ;; return_ None
          else return_ (Some err)
      | None => return_ (Some err)
      end
  | ApiOk (team, resp) =>
      d_Set "etag" (with_etag (Header_ETag resp)) ;;
      d_Set "description" (with_description (GetDescription team)) ;;
      d_Set "name" (with_name (GetName team)) ;;
      d_Set "privacy" (with_privacy (GetPrivacy team)) ;;
      match Parent team with
      | Some parent =>
          d_Set "parent_team_id"
                (with_parent_team_id (FormatInt (ParentGetID parent)))
      | None => d_Set "parent_team_id" (with_parent_team_id "")
      end ;;
      d_Set "ldap_dn" (with_ldap_dn (GetLDAPDN team)) ;;
      d_Set "slug" (with_slug (GetSlug team)) ;;
      d_Set "node_id" (with_node_id (GetNodeID team)) ;;
      d_Set "members_count" (with_members_count (GetMembersCount team)) ;;
      return_ None
  end.

(** [resourceGithubTeamRead], lines 165-247. *)
Definition resourceGithubTeamRead (meta : Owner) : M (option error) :=
  err <- checkOrganization meta ;;
  match err with
  | Some e => return_ (Some e)
  | None =>
      let client := v3client meta in
      let orgId := owner_id meta in
      d_id <- d_Get Id ;;
      match ParseInt d_id with
      | inr err => return_ (Some (unconvertibleIdErr d_id err))
      | inl id =>
          let ctx := WithId Background d_id in
          isNew <- d_Get IsNewResource ;;
          d_etag <- d_Get etag ;;
          let ctx := if negb isNew then WithEtag ctx d_etag else ctx in
          r <- GetTeamByID client ctx orgId id ;;
          r <- for_range github_team_api_retry
                 (read_retry_body client ctx orgId id) r ;;
          read_finish r
      end
  end.

Definition with_ParentTeamID (teamId : Z) (t : NewTeam) : NewTeam :=
  {| nt_Name := nt_Name t; nt_Description := nt_Description t;
     nt_Privacy := nt_Privacy t; nt_ParentTeamID := Some teamId |}.

(** The body of the parent loop of Create (lines 117-127), over the
    loop-carried [(teamId, err)]. *)
Definition create_parent_body (parentTeamIdString : string) (meta : Owner)
    (i : Z) (r : api_result Z) : M (ctl (api_result Z)) :=
  match err_of r with
  | Some _ =>
      time_Sleep github_team_api_wait ;;
      r' <- getTeamID parentTeamIdString meta ;;
      pure (Continue r')
  | None => pure (Break r)
  end.

(** The block [if parentTeamIdString, ok := d.GetOk("parent_team_id"); ok]
    of Create (lines 109-133): the team to send, with its parent set when
    one is given. *)
Definition create_parent_team (meta : Owner) (newTeam : NewTeam) : M NewTeam :=
  p <- d_GetOk parent_team_id ;;
  let '(parentTeamIdString, ok) := p in
  if ok then
    r <- getTeamID parentTeamIdString meta ;;
    r <- for_range github_team_api_retry
           (create_parent_body parentTeamIdString meta) r ;;
    match r with
    | ApiErr err => return_ (Some err)
    | ApiOk teamId => pure (with_ParentTeamID teamId newTeam)
    end
  else pure newTeam.

(** Create from the create call on (lines 134-162): the call, the two
    side-effect calls and the read that fills the state. *)
Definition create_call_and_after (meta : Owner) (newTeam : NewTeam)
  : M (option error) :=
  let client := v3client meta in
  let ownerName := owner_name meta in
  let ctx := Background in
  r <- CreateTeam client ownerName newTeam ;;
  match r with
  | ApiErr err => return_ (Some err)
  | ApiOk githubTeam =>
      cdm <- d_Get create_default_maintainer ;;
      (if negb cdm then
         match Slug githubTeam with
         | None => panic
         | Some teamSlug =>
             err <- call (removeDefaultMaintainer teamSlug meta) ;;
             match err with
             | Some e => return_ (Some e)
             | None => pure tt
             end
         end
       else pure tt) ;;
      ldapDN <- d_Get ldap_dn ;;
      (if negb (String.eqb ldapDN "") then
         err <- UpdateTeamLDAPMapping client ctx (GetID githubTeam) ldapDN ;;
         match err with
         | Some e => return_ (Some e)
         | None => pure tt
         end
       else pure tt) ;;
      d_SetId (FormatInt (GetID githubTeam)) ;;
      err <- call (resourceGithubTeamRead meta) ;;
      return_ err
  end.

(** [github.NewTeam{Name, Description, Privacy}] from the configured
    fields, as both Create and Update build it. *)
Definition team_of_config (d : ResourceData) : NewTeam :=
  {| nt_Name := name d;
     nt_Description := Some (description d);
     nt_Privacy := Some (privacy d);
     nt_ParentTeamID := None |}.

(** [resourceGithubTeamCreate], lines 92-163. *)
Definition resourceGithubTeamCreate (meta : Owner) : M (option error) :=
  err <- checkOrganization meta ;;
  match err with
  | Some e => return_ (Some e)
  | None =>
      newTeam <- d_Get team_of_config ;;
      newTeam <- create_parent_team meta newTeam ;;
      create_call_and_after meta newTeam
  end.

(** The body of the parent loop of Update (lines 274-284). *)
Definition update_parent_body (parentTeamIdString : string) (meta : Owner)
    (i : Z) (r : api_result Z) : M (ctl (api_result Z)) :=
  match err_of r with
  | Some _ =>
      time_Sleep github_team_api_wait ;;
      r' <- getTeamID parentTeamIdString meta ;;
      pure (Continue r')
  | None => pure (Break r)
  end.

(** The same block in Update (lines 264-290). *)
Definition update_parent_team (meta : Owner) (editedTeam : NewTeam)
  : M NewTeam :=
  p <- d_GetOk parent_team_id ;;
  let '(parentTeamIdString, ok) := p in
  if ok then
    r <- getTeamID parentTeamIdString meta ;;
    r <- for_range github_team_api_retry
           (update_parent_body parentTeamIdString meta) r ;;
    match r with
    | ApiErr err => return_ (Some err)
    | ApiOk teamId => pure (with_ParentTeamID teamId editedTeam)
    end
  else pure editedTeam.

(** Update from the parse of the identifier on (lines 292-316): the edit
    call, the LDAP mapping when [ldap_dn] changed, and the read that fills
    the state. *)
Definition update_call_and_after (meta : Owner) (editedTeam : NewTeam)
  : M (option error) :=
  let client := v3client meta in
  let orgId := owner_id meta in
  d_id <- d_Get Id ;;
  match ParseInt d_id with
  | inr err => return_ (Some (unconvertibleIdErr d_id err))
  | inl teamId =>
      let ctx := WithId Background d_id in
      r <- EditTeamByID client ctx orgId teamId editedTeam false ;;
      match r with
      | ApiErr err => return_ (Some err)
      | ApiOk team =>
          changed <- d_HasChange prior_ldap_dn ldap_dn ;;
          (if changed then
             ldapDN <- d_Get ldap_dn ;;
             err <- UpdateTeamLDAPMapping client ctx (GetID team) ldapDN ;;
             match err with
             | Some e => return_ (Some e)
             | None => pure tt
             end
           else pure tt) ;;
          d_SetId (FormatInt (GetID team)) ;;
          err <- call (resourceGithubTeamRead meta) ;;
          return_ err
      end
  end.

(** [resourceGithubTeamUpdate], lines 249-317. *)
Definition resourceGithubTeamUpdate (meta : Owner) : M (option error) :=
  err <- checkOrganization meta ;;
  match err with
  | Some e => return_ (Some e)
  | None =>
      editedTeam <- d_Get team_of_config ;;
      editedTeam <- update_parent_team meta editedTeam ;;
      update_call_and_after meta editedTeam
  end.

(** ** Reading a trace *)

Definition is_remote (e : Event) : bool :=
  match e with
  | EvSleep _ | EvSetId _ | EvSet _ => false
  | _ => true
  end.


Definition is_write (e : Event) : bool :=
  match e with EvSetId _ | EvSet _ => true | _ => false end.

Definition is_create (e : Event) : bool :=
  match e with EvCreateTeam _ _ => true | _ => false end.

Definition is_edit (e : Event) : bool :=
  match e with EvEditTeamByID _ _ _ _ _ => true | _ => false end.

Definition is_delete (e : Event) : bool :=
  match e with EvDeleteTeamByID _ _ _ => true | _ => false end.

Definition is_ldap (e : Event) : bool :=
  match e with EvUpdateTeamLDAPMapping _ _ _ => true | _ => false end.

Definition is_lookup (e : Event) : bool :=
  match e with EvGetTeamID _ => true | _ => false end.

Definition is_get (e : Event) : bool :=
  match e with EvGetTeamByID _ _ _ => true | _ => false end.

Definition is_query (e : Event) : bool :=
  match e with EvQueryMembers _ _ => true | _ => false end.

Definition is_removal (e : Event) : bool :=
  match e with EvRemoveTeamMembershipBySlug _ _ _ => true | _ => false end.

(** How many events of a trace satisfy a test. *)
Definition count (p : Event -> bool) (t : list Event) : nat :=
  List.length (filter p t).


(** [n] rounds of "sleep, then call", as a retry loop emits them. *)
Fixpoint retries (n : nat) (ev : Event) : list Event :=
  match n with
  | O => []
  | S n' => EvSleep github_team_api_wait :: ev :: retries n' ev
  end.

(** ** What the statements are written with *)

(** [k] more remote calls made. *)
Definition ticks (k : nat) (s : State) : State :=
  {| st_d := st_d s; st_clock := (st_clock s + k)%nat |}.

(** The retry policy of the parent reference, in the words of the
    specification: the lookup is tried again after any error, up to [n]
    times, and what the last attempt made returned is the result.
    [answer c] is what the lookup returns when it is the call number [c];
    the second component counts the retries made. *)
Fixpoint parent_retry_policy {A} (answer : nat -> api_result A)
    (n c : nat) (r : api_result A) : api_result A * nat :=
  match n with
  | O => (r, O)
  | S n' =>
      match r with
      | ApiOk _ => (r, O)
      | ApiErr _ =>
          let '(r', k) := parent_retry_policy answer n' (S c) (answer c) in
          (r', S k)
      end
  end.

(** The value the loop carries at its [j]-th iteration: the one it was
    entered with, then the answers of the calls made from number [c] on. *)
Definition attempt {A} (answer : nat -> api_result A) (c : nat)
    (r : api_result A) (j : nat) : api_result A :=
  match j with
  | O => r
  | S j' => answer (c + j')%nat
  end.

(** The errors the loop of Read answers with one more fetch: the
    [ErrorResponse]s other than not-modified. *)
Definition retryable (e : error) : bool :=
  match asErrorResponse e with
  | Some sc => negb (sc =? StatusNotModified)
  | None => false
  end.

Definition retried {A} (r : api_result A) : bool :=
  match r with
  | ApiErr e => retryable e
  | ApiOk _ => false
  end.

(** What the loop of Read does with the value it carries, as a function of
    the answers to come: how the loop ends and how many fetches it made. *)
Fixpoint read_retry_policy {A} (answer : nat -> api_result A)
    (n c : nat) (r : api_result A) : flow (api_result A) * nat :=
  match n with
  | O => (Next r, O)
  | S n' =>
      match r with
      | ApiOk _ => (Next r, O)
      | ApiErr e =>
          match asErrorResponse e with
          | Some sc =>
              if sc =? StatusNotModified then (Return None, O)
              else
                let '(o, k) := read_retry_policy answer n' (S c) (answer c) in
                (o, S k)
          | None => (Return (Some e), O)
          end
      end
  end.

(** A run that comes after the events [t]. *)
Definition after {A} (t : list Event) (x : flow A * State * list Event)
  : flow A * State * list Event :=
  let '(o, s', t') := x in (o, s', t ++ t').

(** The state Read leaves after a successful fetch, and its writes. *)
Definition read_fields (team : Team) (resp : Response) (d : ResourceData)
  : ResourceData :=
  with_members_count (GetMembersCount team)
    (with_node_id (GetNodeID team)
      (with_slug (GetSlug team)
        (with_ldap_dn (GetLDAPDN team)
          (with_parent_team_id
             (match Parent team with
              | Some parent => FormatInt (ParentGetID parent)
              | None => ""
              end)
             (with_privacy (GetPrivacy team)
               (with_name (GetName team)
                 (with_description (GetDescription team)
                   (with_etag (Header_ETag resp) d)))))))).

Definition read_writes : list Event :=
  [EvSet "etag"; EvSet "description"; EvSet "name"; EvSet "privacy";
   EvSet "parent_team_id"; EvSet "ldap_dn"; EvSet "slug"; EvSet "node_id";
   EvSet "members_count"].

(** The context Read makes its fetches with: the identifier, and the stored
    etag unless the resource is new. *)
Definition read_ctx (d : ResourceData) : Context :=
  if negb (IsNewResource d)
  then WithEtag (WithId Background (Id d)) (etag d)
  else WithId Background (Id d).

(** [m] emits at most [b] events that satisfy [p], whatever the state it
    starts from and whatever the remote side answers. *)
Definition count_le {A} (p : Event -> bool) (m : M A) (b : nat) : Prop :=
  forall s, (count p (snd (m s)) <= b)%nat.

(** Every event [m] emits satisfies [Q]. *)
Definition all_events {A} (Q : Event -> Prop) (m : M A) : Prop :=
  forall s, Forall Q (snd (m s)).

Definition only {A} (q : Event -> bool) (m : M A) : Prop :=
  all_events (fun e => q e = true) m.

Definition keeps_d {A} (m : M A) : Prop :=
  forall s, st_d (snd (fst (m s))) = st_d s.


Definition no_write (e : Event) : bool := negb (is_write e).
Definition no_delete (e : Event) : bool := negb (is_delete e).
Definition no_ldap (e : Event) : bool := negb (is_ldap e).

(** After a create call that returned [githubTeam] from the state [s], the
    default maintainers are out of the way: they were to be kept, or their
    removal went through, leaving the state [s1] after the events [t1]. *)
Definition maintainers_done (meta : Owner) (s : State) (githubTeam : Team)
    (s1 : State) (t1 : list Event) : Prop :=
  (create_default_maintainer (st_d s) = true /\ s1 = tick s /\ t1 = [])
  \/
  (create_default_maintainer (st_d s) = false /\
   exists teamSlug,
     Slug githubTeam = Some teamSlug /\
     removeDefaultMaintainer teamSlug meta (tick s) = (Return None, s1, t1)).

(** ** Concrete scenarios

    Small remote sides and local states on which the functions are run. *)

Definition e404 : error := ErrorResponse 404 "Not Found".
Definition e304 : error := ErrorResponse 304 "Not Modified".
Definition e500 : error := ErrorResponse 500 "Internal Server Error".
Definition e403 : error := ErrorResponse 403 "Forbidden".
Definition e_rate : error := OtherError "API rate limit exceeded".

Definition team_core : Team :=
  {| ID := Some 42; Name := Some "core"; Description := Some "Core team";
     Privacy := Some "closed"; Parent := Some {| PID := Some 7 |};
     LDAPDN := None; Slug := Some "core"; NodeID := Some "T_42";
     MembersCount := Some 3 |}.

Definition resp_core : Response := {| Header_ETag := "W/etag-2" |}.

Definition d_core : ResourceData :=
  {| Id := "42"; IsNewResource := false; name := "core";
     description := "old"; privacy := "secret"; parent_team_id := "";
     ldap_dn := ""; create_default_maintainer := false; slug := "core";
     etag := "W/etag-1"; node_id := ""; members_count := 0;
     prior_ldap_dn := "" |}.

Definition s_core : State := {| st_d := d_core; st_clock := O |}.

(** A REST client whose every call succeeds. *)
Definition v3_ok : V3Client :=
  {| Teams_CreateTeam := fun _ _ _ => ApiOk team_core;
     Teams_GetTeamByID := fun _ _ _ _ => ApiOk (team_core, resp_core);
     Teams_EditTeamByID := fun _ _ _ _ _ _ => ApiOk team_core;
     Teams_DeleteTeamByID := fun _ _ _ _ => None;
     Teams_RemoveTeamMembershipBySlug := fun _ _ _ _ => None;
     Admin_UpdateTeamLDAPMapping := fun _ _ _ _ => None |}.

Definition with_GetTeamByID
    (f : nat -> Context -> Z -> Z -> api_result (Team * Response))
    (c : V3Client) : V3Client :=
  {| Teams_CreateTeam := Teams_CreateTeam c;
     Teams_GetTeamByID := f;
     Teams_EditTeamByID := Teams_EditTeamByID c;
     Teams_DeleteTeamByID := Teams_DeleteTeamByID c;
     Teams_RemoveTeamMembershipBySlug := Teams_RemoveTeamMembershipBySlug c;
     Admin_UpdateTeamLDAPMapping := Admin_UpdateTeamLDAPMapping c |}.

Definition with_DeleteTeamByID (f : nat -> Context -> Z -> Z -> option error)
    (c : V3Client) : V3Client :=
  {| Teams_CreateTeam := Teams_CreateTeam c;
     Teams_GetTeamByID := Teams_GetTeamByID c;
     Teams_EditTeamByID := Teams_EditTeamByID c;
     Teams_DeleteTeamByID := f;
     Teams_RemoveTeamMembershipBySlug := Teams_RemoveTeamMembershipBySlug c;
     Admin_UpdateTeamLDAPMapping := Admin_UpdateTeamLDAPMapping c |}.

Definition with_RemoveMembership
    (f : nat -> string -> string -> string -> option error)
    (c : V3Client) : V3Client :=
  {| Teams_CreateTeam := Teams_CreateTeam c;
     Teams_GetTeamByID := Teams_GetTeamByID c;
     Teams_EditTeamByID := Teams_EditTeamByID c;
     Teams_DeleteTeamByID := Teams_DeleteTeamByID c;
     Teams_RemoveTeamMembershipBySlug := f;
     Admin_UpdateTeamLDAPMapping := Admin_UpdateTeamLDAPMapping c |}.

Definition with_LDAPMapping
    (f : nat -> Context -> Z -> string -> option error)
    (c : V3Client) : V3Client :=
  {| Teams_CreateTeam := Teams_CreateTeam c;
     Teams_GetTeamByID := Teams_GetTeamByID c;
     Teams_EditTeamByID := Teams_EditTeamByID c;
     Teams_DeleteTeamByID := Teams_DeleteTeamByID c;
     Teams_RemoveTeamMembershipBySlug := Teams_RemoveTeamMembershipBySlug c;
     Admin_UpdateTeamLDAPMapping := f |}.

(** An organization whose remote side always answers with success, the
    parent lookup resolving to team 7 and the team having one member. *)
Definition meta_ok : Owner :=
  {| owner_name := "acme"; owner_id := 1; org_check := None;
     getTeamID_answer := fun _ _ => ApiOk 7;
     v3client := v3_ok;
     v4client := {| Query_TeamMembers := fun _ _ _ => ApiOk ["octocat"] |} |}.

Definition with_v3 (c : V3Client) (m : Owner) : Owner :=
  {| owner_name := owner_name m; owner_id := owner_id m;
     org_check := org_check m; getTeamID_answer := getTeamID_answer m;
     v3client := c; v4client := v4client m |}.

Definition with_getTeamID (f : nat -> string -> api_result Z) (m : Owner)
  : Owner :=
  {| owner_name := owner_name m; owner_id := owner_id m;
     org_check := org_check m; getTeamID_answer := f;
     v3client := v3client m; v4client := v4client m |}.

Definition with_members (f : nat -> string -> string -> api_result (list string))
    (m : Owner) : Owner :=
  {| owner_name := owner_name m; owner_id := owner_id m;
     org_check := org_check m; getTeamID_answer := getTeamID_answer m;
     v3client := v3client m; v4client := {| Query_TeamMembers := f |} |}.

(** The delete call fails with 500 and the re-fetch with 403. *)
Definition meta_delete_500_get_403 : Owner :=
  with_v3 (with_DeleteTeamByID (fun _ _ _ _ => Some e500)
            (with_GetTeamByID (fun _ _ _ _ => ApiErr e403) v3_ok)) meta_ok.

(** The delete call fails with 500 and the team is still there. *)
Definition meta_delete_500_get_ok : Owner :=
  with_v3 (with_DeleteTeamByID (fun _ _ _ _ => Some e500) v3_ok) meta_ok.

(** The delete call fails with 500 and the team is gone. *)
Definition meta_delete_500_get_404 : Owner :=
  with_v3 (with_DeleteTeamByID (fun _ _ _ _ => Some e500)
            (with_GetTeamByID (fun _ _ _ _ => ApiErr e404) v3_ok)) meta_ok.

(** Every fetch of the team answers not-found. *)
Definition meta_get_404 : Owner :=
  with_v3 (with_GetTeamByID (fun _ _ _ _ => ApiErr e404) v3_ok) meta_ok.

(** The first three fetches answer not-found, the later ones succeed. *)
Definition meta_get_404_thrice : Owner :=
  with_v3 (with_GetTeamByID
             (fun n _ _ _ => if (n <? 3)%nat then ApiErr e404
                             else ApiOk (team_core, resp_core)) v3_ok) meta_ok.

(** The first fetch fails with an error that is not an [ErrorResponse];
    a second fetch would succeed. *)
Definition meta_get_rate_limited : Owner :=
  with_v3 (with_GetTeamByID
             (fun n _ _ _ => if (n <? 1)%nat then ApiErr e_rate
                             else ApiOk (team_core, resp_core)) v3_ok) meta_ok.

(** Every fetch of the team answers not-modified. *)
Definition meta_get_304 : Owner :=
  with_v3 (with_GetTeamByID (fun _ _ _ _ => ApiErr e304) v3_ok) meta_ok.

Definition e_timeout : error := OtherError "context deadline exceeded".

(** The parent lookups never succeed: not-found ten times, then a
    timeout. *)
Definition meta_parent_never : Owner :=
  with_getTeamID (fun n _ => if (n <? 10)%nat then ApiErr e404
                             else ApiErr e_timeout) meta_ok.

(** The parent appears at the fourth lookup. *)
Definition meta_parent_late : Owner :=
  with_getTeamID (fun n _ => if (n <? 3)%nat then ApiErr e404
                             else ApiOk 7) meta_ok.

(** A team that names the parent "platform". *)
Definition s_child : State :=
  {| st_d := with_parent_team_id "platform" d_core; st_clock := O |}.


(** The removal of the one default maintainer is refused. *)
Definition meta_remove_refused : Owner :=
  with_v3 (with_RemoveMembership (fun _ _ _ _ => Some e403) v3_ok) meta_ok.

(** The configured [ldap_dn] differs from the one last read. *)
Definition s_ldap : State :=
  {| st_d := with_ldap_dn "cn=core,ou=teams" d_core; st_clock := O |}.

(** An identifier that is a slug, not a number. *)
Definition s_slug_id : State :=
  {| st_d := with_Id "core-team" d_core; st_clock := O |}.

(** The same, for a team that names a parent. *)
Definition s_slug_id_child : State :=
  {| st_d := with_parent_team_id "platform" (with_Id "core-team" d_core);
     st_clock := O |}.

(** ** Identifiers as decimal strings *)

(** The number a string of digits stands for, read from the left after the
    digits that gave [n]. *)
Fixpoint uint_value (u : Decimal.uint) (n : Z) : Z :=
  match u with
  | Decimal.Nil => n
  | Decimal.D0 u' => uint_value u' (n * 10)
  | Decimal.D1 u' => uint_value u' (n * 10 + 1)
  | Decimal.D2 u' => uint_value u' (n * 10 + 2)
  | Decimal.D3 u' => uint_value u' (n * 10 + 3)
  | Decimal.D4 u' => uint_value u' (n * 10 + 4)
  | Decimal.D5 u' => uint_value u' (n * 10 + 5)
  | Decimal.D6 u' => uint_value u' (n * 10 + 6)
  | Decimal.D7 u' => uint_value u' (n * 10 + 7)
  | Decimal.D8 u' => uint_value u' (n * 10 + 8)
  | Decimal.D9 u' => uint_value u' (n * 10 + 9)
  end.

(** The values of Go's [int64]. *)
Definition is_int64 (z : Z) : Prop := - 2 ^ 63 <= z < 2 ^ 63.

(** ** Steps of Create and Update that went through *)

(** After the default maintainers of a created team were dealt with in the
    state [s1], the LDAP mapping is out of the way: there was none to set,
    or the mapping call succeeded; [s2] is the state and [t2] the events
    after it. *)
Definition create_ldap_done (meta : Owner) (s : State) (githubTeam : Team)
    (s1 s2 : State) (t2 : list Event) : Prop :=
  (ldap_dn (st_d s) = "" /\ s2 = s1 /\ t2 = [])
  \/
  (ldap_dn (st_d s) <> "" /\
   Admin_UpdateTeamLDAPMapping (v3client meta) (st_clock s1) Background
     (GetID githubTeam) (ldap_dn (st_d s)) = None /\
   s2 = tick s1 /\
   t2 = [EvUpdateTeamLDAPMapping Background (GetID githubTeam)
           (ldap_dn (st_d s))]).

(** The same step of Update, after an edit call made from the state [s]
    that returned [team]. *)
Definition update_ldap_done (meta : Owner) (s : State) (team : Team)
    (s2 : State) (t2 : list Event) : Prop :=
  (prior_ldap_dn (st_d s) = ldap_dn (st_d s) /\ s2 = tick s /\ t2 = [])
  \/
  (prior_ldap_dn (st_d s) <> ldap_dn (st_d s) /\
   Admin_UpdateTeamLDAPMapping (v3client meta) (S (st_clock s))
     (WithId Background (Id (st_d s))) (GetID team) (ldap_dn (st_d s)) = None /\
   s2 = tick (tick s) /\
   t2 = [EvUpdateTeamLDAPMapping (WithId Background (Id (st_d s)))
           (GetID team) (ldap_dn (st_d s))]).

(** ** Tests on events *)

(** An edit call that does not ask for the parent to be removed. *)
Definition edit_keeps_parent (e : Event) : bool :=
  match e with
  | EvEditTeamByID _ _ _ _ removeParent => negb removeParent
  | _ => true
  end.

(** An event that is neither the membership query nor a removal call. *)
Definition no_maintainer_call (e : Event) : bool :=
  negb (is_query e || is_removal e).

(** ** More scenarios *)

(** The team as the edit call returns it when the remote side has given
    it another id. *)
Definition team_moved : Team :=
  {| ID := Some 99; Name := Some "core"; Description := Some "Core team";
     Privacy := Some "closed"; Parent := None;
     LDAPDN := None; Slug := Some "core"; NodeID := Some "T_99";
     MembersCount := Some 3 |}.

Definition with_EditTeamByID
    (f : nat -> Context -> Z -> Z -> NewTeam -> bool -> api_result Team)
    (c : V3Client) : V3Client :=
  {| Teams_CreateTeam := Teams_CreateTeam c;
     Teams_GetTeamByID := Teams_GetTeamByID c;
     Teams_EditTeamByID := f;
     Teams_DeleteTeamByID := Teams_DeleteTeamByID c;
     Teams_RemoveTeamMembershipBySlug := Teams_RemoveTeamMembershipBySlug c;
     Admin_UpdateTeamLDAPMapping := Admin_UpdateTeamLDAPMapping c |}.

Definition with_CreateTeam
    (f : nat -> string -> NewTeam -> api_result Team)
    (c : V3Client) : V3Client :=
  {| Teams_CreateTeam := f;
     Teams_GetTeamByID := Teams_GetTeamByID c;
     Teams_EditTeamByID := Teams_EditTeamByID c;
     Teams_DeleteTeamByID := Teams_DeleteTeamByID c;
     Teams_RemoveTeamMembershipBySlug := Teams_RemoveTeamMembershipBySlug c;
     Admin_UpdateTeamLDAPMapping := Admin_UpdateTeamLDAPMapping c |}.

(** The edit call answers with [team_moved]. *)
Definition meta_edit_moved : Owner :=
  with_v3 (with_EditTeamByID (fun _ _ _ _ _ _ => ApiOk team_moved) v3_ok)
          meta_ok.

(** The edit call is refused. *)
Definition meta_edit_refused : Owner :=
  with_v3 (with_EditTeamByID (fun _ _ _ _ _ _ => ApiErr e403) v3_ok) meta_ok.

(** Three members; the removal of the second one is refused. *)
Definition meta_second_removal_refused : Owner :=
  with_members (fun _ _ _ => ApiOk ["ann"; "bob"; "cy"])
    (with_v3 (with_RemoveMembership
                (fun _ _ _ user => if String.eqb user "bob" then Some e403
                                   else None) v3_ok) meta_ok).

(** The account is a user, not an organization. *)
Definition e_not_org : error :=
  OtherError "This resource can only be used in the context of an organization".

Definition meta_user : Owner :=
  {| owner_name := owner_name meta_ok; owner_id := owner_id meta_ok;
     org_check := Some e_not_org;
     getTeamID_answer := getTeamID_answer meta_ok;
     v3client := v3client meta_ok; v4client := v4client meta_ok |}.

(** The create call answers with a team that has no slug. *)
Definition team_no_slug : Team :=
  {| ID := Some 42; Name := Some "core"; Description := None;
     Privacy := None; Parent := None; LDAPDN := None; Slug := None;
     NodeID := None; MembersCount := None |}.

Definition meta_no_slug : Owner :=
  with_v3 (with_CreateTeam (fun _ _ _ => ApiOk team_no_slug) v3_ok) meta_ok.

(** ** Panics *)

(** No run of [m] panics. *)
Definition never_panics {A} (m : M A) : Prop :=
  forall s, fst (fst (m s)) <> Panic.

(** ** The schema of the resource *)

(** [schema.ValueType], for the types the resource uses. *)
Inductive ValueType := TypeString | TypeBool | TypeInt.

(** The [Default] of a field. *)
Inductive DefaultValue :=
| DefaultString (v : string)
| DefaultBool (v : bool).

(** [*schema.Schema], for the attributes the resource sets. *)
Record FieldSchema := {
  f_Type : ValueType;
  f_Required : bool;
  f_Optional : bool;
  f_Computed : bool;
  f_Default : option DefaultValue
}.

(** The [Schema] map of [resourceGithubTeam], lines 43-88. *)
Definition resourceGithubTeam_Schema : list (string * FieldSchema) :=
  [("name",
    {| f_Type := TypeString; f_Required := true; f_Optional := false;
       f_Computed := false; f_Default := None |});
   ("description",
    {| f_Type := TypeString; f_Required := false; f_Optional := true;
       f_Computed := false; f_Default := None |});
   ("privacy",
    {| f_Type := TypeString; f_Required := false; f_Optional := true;
       f_Computed := false; f_Default := Some (DefaultString "secret") |});
   ("parent_team_id",
    {| f_Type := TypeString; f_Required := false; f_Optional := true;
       f_Computed := false; f_Default := None |});
   ("ldap_dn",
    {| f_Type := TypeString; f_Required := false; f_Optional := true;
       f_Computed := false; f_Default := None |});
   ("create_default_maintainer",
    {| f_Type := TypeBool; f_Required := false; f_Optional := true;
       f_Computed := false; f_Default := Some (DefaultBool false) |});
   ("slug",
    {| f_Type := TypeString; f_Required := false; f_Optional := false;
       f_Computed := true; f_Default := None |});
   ("etag",
    {| f_Type := TypeString; f_Required := false; f_Optional := false;
       f_Computed := true; f_Default := None |});
   ("node_id",
    {| f_Type := TypeString; f_Required := false; f_Optional := false;
       f_Computed := true; f_Default := None |});
   ("members_count",
    {| f_Type := TypeInt; f_Required := false; f_Optional := false;
       f_Computed := true; f_Default := None |})].

(** The keys of the schema, and whether a key is one of them. *)
Definition schema_keys : list string := map fst resourceGithubTeam_Schema.

Definition declared (key : string) : bool :=
  existsb (String.eqb key) schema_keys.

(** A [d.Set] is on a key of the schema. *)
Definition declared_write (e : Event) : bool :=
  match e with
  | EvSet key => declared key
  | _ => true
  end.

(** The create call is refused. *)
Definition meta_create_refused : Owner :=
  with_v3 (with_CreateTeam (fun _ _ _ => ApiErr e403) v3_ok) meta_ok.

(** ** The parent block that went through *)

(** The parent block of Create, or of Update, run from the state [s] has
    gone through: there was no parent to resolve, or a lookup succeeded
    after [k] failed ones, [k] at most [github_team_api_retry].  [newTeam]
    is the team to send, [s0] the state and [t0] the events after the
    block. *)
Definition parent_resolved (meta : Owner) (s : State) (newTeam : NewTeam)
    (s0 : State) (t0 : list Event) : Prop :=
  let p := parent_team_id (st_d s) in
  (p = "" /\ newTeam = team_of_config (st_d s) /\ s0 = s /\ t0 = [])
  \/
  (p <> "" /\
   exists k teamId,
     (k <= Z.to_nat github_team_api_retry)%nat /\
     (forall j, (j < k)%nat ->
        err_of (getTeamID_answer meta (st_clock s + j)%nat p) <> None) /\
     getTeamID_answer meta (st_clock s + k)%nat p = ApiOk teamId /\
     newTeam = with_ParentTeamID teamId (team_of_config (st_d s)) /\
     s0 = ticks (S k) s /\
     t0 = EvGetTeamID p :: retries k (EvGetTeamID p)).

(** Whether a call returned an error. *)
Definition failed {A} (r : api_result A) : bool :=
  match r with
  | ApiOk _ => false
  | ApiErr _ => true
  end.

(** * Proofs *)

(** ** Running the monad *)

Ltac unfold_prims :=
  cbv beta iota zeta delta
    [bind pure return_ panic call d_Get d_GetOk d_HasChange d_Set d_SetId
     time_Sleep remote checkOrganization unconvertibleIdErr getTeamID
     CreateTeam GetTeamByID EditTeamByID DeleteTeamByID UpdateTeamLDAPMapping
     RemoveTeamMembershipBySlug QueryTeamMembers err_of].

Lemma bind_Next {A B} (m : M A) (f : A -> M B) s a s1 t1 :
  m s = (Next a, s1, t1) ->
  bind m f s = (let '(r, s2, t2) := f a s1 in (r, s2, t1 ++ t2)).
Proof. intros H. unfold bind. rewrite H. destruct (f a s1) as [[r s2] t2]. reflexivity. Qed.

Lemma bind_Return {A B} (m : M A) (f : A -> M B) s e s1 t1 :
  m s = (Return e, s1, t1) -> bind m f s = (Return e, s1, t1).
Proof. intros H. unfold bind. rewrite H. reflexivity. Qed.

Lemma bind_Panic {A B} (m : M A) (f : A -> M B) s s1 t1 :
  m s = (Panic, s1, t1) -> bind m f s = (Panic, s1, t1).
Proof. intros H. unfold bind. rewrite H. reflexivity. Qed.

(** ** Identifiers *)

Example ParseInt_samples :
  ParseInt "42" = inl 42
  /\ ParseInt "+42" = inl 42
  /\ ParseInt "-9223372036854775808" = inl (- 9223372036854775808)
  /\ ParseInt "9223372036854775808"
     = inr (NumError "9223372036854775808" ErrRange)
  /\ ParseInt "" = inr (NumError "" ErrSyntax)
  /\ ParseInt "4_2" = inr (NumError "4_2" ErrSyntax)
  /\ ParseInt "core-team" = inr (NumError "core-team" ErrSyntax)
  /\ ParseInt (FormatInt 42) = inl 42.
Proof. repeat split. Qed.

(** ** Delete *)

Section Delete.

Variable meta : Owner.
Variable s : State.
Variable id : Z.

Hypothesis org_ok : org_check meta = None.
Hypothesis id_ok : ParseInt (Id (st_d s)) = inl id.

Let ctx := WithId Background (Id (st_d s)).
Let del := EvDeleteTeamByID ctx (owner_id meta) id.
Let get := EvGetTeamByID ctx (owner_id meta) id.

(** A delete call that succeeds is the whole of Delete. *)
Lemma delete_call_succeeds :
  Teams_DeleteTeamByID (v3client meta) (st_clock s) ctx (owner_id meta) id
    = None ->
  run (resourceGithubTeamDelete meta) s = (Returned None, tick s, [del]).
Proof.
  intros Hdel. unfold run, resourceGithubTeamDelete. unfold_prims.
  rewrite org_ok, id_ok. fold ctx. rewrite Hdel. reflexivity.
Qed.

(** Claim C1, as the code has it.  When the delete call errors, Delete
    fetches the team again.  If that fetch errors with not-found, Delete
    empties the identifier and returns nil.  If it errors with anything
    else, Delete returns the error of the fetch (whatever the delete call
    had returned) and writes nothing. *)
Theorem delete_refetch_after_failed_delete (e_del e : error) :
  Teams_DeleteTeamByID (v3client meta) (st_clock s) ctx (owner_id meta) id
    = Some e_del ->
  Teams_GetTeamByID (v3client meta) (S (st_clock s)) ctx (owner_id meta) id
    = ApiErr e ->
  run (resourceGithubTeamDelete meta) s =
    if is_not_found e
    then (Returned None, map_d (with_Id "") (tick (tick s)),
          [del; get; EvSetId ""])
    else (Returned (Some e), tick (tick s), [del; get]).
Proof.
  intros Hdel Hget. unfold run, resourceGithubTeamDelete. unfold_prims.
  rewrite org_ok, id_ok. fold ctx. rewrite Hdel. cbn [st_clock tick].
  rewrite Hget. unfold is_not_found, is_status.
  destruct (asErrorResponse e) as [sc|]; [|reflexivity].
  destruct (sc =? StatusNotFound); reflexivity.
Qed.

(** The remaining case: the delete call errors and the team is fetched
    again without error.  The error of the delete call is lost with the
    assignment of the fetch's nil to [err], and Delete returns nil with the
    identifier in place. *)
Lemma delete_refetch_finds_team (e_del : error) (tr : Team * Response) :
  Teams_DeleteTeamByID (v3client meta) (st_clock s) ctx (owner_id meta) id
    = Some e_del ->
  Teams_GetTeamByID (v3client meta) (S (st_clock s)) ctx (owner_id meta) id
    = ApiOk tr ->
  run (resourceGithubTeamDelete meta) s
    = (Returned None, tick (tick s), [del; get]).
Proof.
  intros Hdel Hget. unfold run, resourceGithubTeamDelete. unfold_prims.
  rewrite org_ok, id_ok. fold ctx. rewrite Hdel. cbn [st_clock tick].
  rewrite Hget. reflexivity.
Qed.

End Delete.

(** The theorem above on a team whose parent's deletion has removed it: the
    delete call fails with 500, the fetch answers 404. *)
Lemma delete_refetch_after_failed_delete_witness :
  run (resourceGithubTeamDelete meta_delete_500_get_404) s_core
  = (Returned None,
     {| st_d := with_Id "" d_core; st_clock := 2 |},
     [EvDeleteTeamByID (WithId Background "42") 1 42;
      EvGetTeamByID (WithId Background "42") 1 42;
      EvSetId ""]).
Proof.
  exact (delete_refetch_after_failed_delete meta_delete_500_get_404 s_core 42
           eq_refl eq_refl e500 e404 eq_refl eq_refl).
Defined.

(** Claim C1 as stated does not hold: with a delete call failing with 500
    and a fetch failing with 403 (not not-found), Delete returns the 403 of
    the fetch, not the 500 of the delete call. *)
Lemma delete_returns_refetch_error :
  Teams_DeleteTeamByID (v3client meta_delete_500_get_403) 0
    (WithId Background "42") 1 42 = Some e500 /\
  Teams_GetTeamByID (v3client meta_delete_500_get_403) 1
    (WithId Background "42") 1 42 = ApiErr e403 /\
  is_not_found e403 = false /\
  fst (fst (run (resourceGithubTeamDelete meta_delete_500_get_403) s_core))
    = Returned (Some e403) /\
  fst (fst (run (resourceGithubTeamDelete meta_delete_500_get_403) s_core))
    <> Returned (Some e500).
Proof.
  repeat split; try reflexivity.
  cbv. intros H. discriminate H.
Qed.

(** And with the team still there after the failed delete call, Delete
    returns nil. *)
Example delete_failed_team_still_there :
  run (resourceGithubTeamDelete meta_delete_500_get_ok) s_core
  = (Returned None, {| st_d := d_core; st_clock := 2 |},
     [EvDeleteTeamByID (WithId Background "42") 1 42;
      EvGetTeamByID (WithId Background "42") 1 42]).
Proof. reflexivity. Qed.

(** ** The retry loops *)

Lemma ticks_0 s : ticks 0 s = s.
Proof. destruct s. unfold ticks. cbn. now rewrite Nat.add_0_r. Qed.

Lemma ticks_S k s : ticks (S k) s = ticks k (tick s).
Proof. destruct s. unfold ticks, tick. cbn. f_equal. lia. Qed.

Lemma ticks_1 s : ticks 1 s = tick s.
Proof. now rewrite ticks_S, ticks_0. Qed.

Lemma ticks_d k s : st_d (ticks k s) = st_d s.
Proof. reflexivity. Qed.

Lemma parent_retry_policy_le {A} (answer : nat -> api_result A) n :
  forall c r, (snd (parent_retry_policy answer n c r) <= n)%nat.
Proof.
  induction n as [|n IH]; intros c r; cbn; [lia|].
  destruct r; cbn; [lia|].
  specialize (IH (S c) (answer c)).
  destruct (parent_retry_policy answer n (S c) (answer c)). cbn in *. lia.
Qed.

Section ParentLoops.

Variable meta : Owner.
Variable p : string.

Let answer := fun c => getTeamID_answer meta c p.

Lemma create_parent_loop_policy n :
  forall i r s,
    for_loop n i (create_parent_body p meta) r s =
      let '(r', k) := parent_retry_policy answer n (st_clock s) r in
      (Next r', ticks k s, retries k (EvGetTeamID p)).
Proof.
  induction n as [|n IH]; intros i r s.
  - cbn. now rewrite ticks_0.
  - cbn [for_loop parent_retry_policy]. destruct r as [a|e].
    + unfold create_parent_body. unfold_prims. now rewrite ticks_0.
    + unfold create_parent_body. unfold_prims.
      rewrite IH. cbn [st_clock tick]. fold (answer (st_clock s)).
      destruct (parent_retry_policy answer n (S (st_clock s))
                  (answer (st_clock s))) as [r' k].
      now rewrite ticks_S.
Qed.

Lemma update_parent_loop_policy n :
  forall i r s,
    for_loop n i (update_parent_body p meta) r s =
      let '(r', k) := parent_retry_policy answer n (st_clock s) r in
      (Next r', ticks k s, retries k (EvGetTeamID p)).
Proof.
  induction n as [|n IH]; intros i r s.
  - cbn. now rewrite ticks_0.
  - cbn [for_loop parent_retry_policy]. destruct r as [a|e].
    + unfold update_parent_body. unfold_prims. now rewrite ticks_0.
    + unfold update_parent_body. unfold_prims.
      rewrite IH. cbn [st_clock tick]. fold (answer (st_clock s)).
      destruct (parent_retry_policy answer n (S (st_clock s))
                  (answer (st_clock s))) as [r' k].
      now rewrite ticks_S.
Qed.

End ParentLoops.

Lemma attempt_shift {A} (answer : nat -> api_result A) c r j :
  attempt answer (S c) (answer c) j = attempt answer c r (S j).
Proof.
  destruct j as [|j]; cbn.
  - now rewrite Nat.add_0_r.
  - f_equal. lia.
Qed.

Lemma parent_retry_policy_recovers {A} (answer : nat -> api_result A) n :
  forall k c r a,
    (k <= n)%nat ->
    (forall j, (j < k)%nat -> err_of (attempt answer c r j) <> None) ->
    attempt answer c r k = ApiOk a ->
    parent_retry_policy answer n c r = (ApiOk a, k).
Proof.
  induction n as [|n IH]; intros k c r a Hk Hfail Hok.
  - assert (k = O) by lia. subst k. cbn in *. now subst r.
  - destruct k as [|k].
    + cbn in Hok. subst r. reflexivity.
    + cbn [parent_retry_policy]. destruct r as [x|e].
      * exfalso. apply (Hfail O); [lia|reflexivity].
      * rewrite (IH k (S c) (answer c) a).
        -- reflexivity.
        -- lia.
        -- intros j Hj. rewrite (attempt_shift answer c (ApiErr e) j).
           apply Hfail. lia.
        -- now rewrite (attempt_shift answer c (ApiErr e) k).
Qed.

Lemma parent_retry_policy_exhausts {A} (answer : nat -> api_result A) n :
  forall c r,
    (forall j, (j < n)%nat -> err_of (attempt answer c r j) <> None) ->
    parent_retry_policy answer n c r = (attempt answer c r n, n).
Proof.
  induction n as [|n IH]; intros c r Hfail.
  - reflexivity.
  - cbn [parent_retry_policy]. destruct r as [x|e].
    + exfalso. apply (Hfail O); [lia|reflexivity].
    + rewrite (IH (S c) (answer c)).
      * now rewrite (attempt_shift answer c (ApiErr e) n).
      * intros j Hj. rewrite (attempt_shift answer c (ApiErr e) j).
        apply Hfail. lia.
Qed.

(** ** Create: the parent reference *)

Lemma create_call_first (meta : Owner) (newTeam : NewTeam) (s : State) :
  exists o s' t,
    run (create_call_and_after meta newTeam) s
    = (o, s', EvCreateTeam (owner_name meta) newTeam :: t).
Proof.
  unfold run, create_call_and_after.
  rewrite (bind_Next _ _ s _ (tick s)
             [EvCreateTeam (owner_name meta) newTeam] eq_refl).
  destruct (_ (tick s)) as [[r s2] t2].
  destruct r; cbn; eauto.
Qed.

Section CreateParent.

Variable meta : Owner.
Variable s : State.

Hypothesis org_ok : org_check meta = None.
Hypothesis parent_set : parent_team_id (st_d s) <> "".

Let p := parent_team_id (st_d s).
Let lookup := fun j => getTeamID_answer meta (st_clock s + j)%nat p.
Let retry := Z.to_nat github_team_api_retry.

Lemma parent_GetOk : negb (String.eqb p "") = true.
Proof.
  destruct (String.eqb_spec p ""); [contradiction|reflexivity].
Qed.

Lemma lookup_attempt j :
  attempt (fun c => getTeamID_answer meta c p) (S (st_clock s))
          (getTeamID_answer meta (st_clock s) p) j = lookup j.
Proof.
  unfold lookup. destruct j as [|j]; cbn.
  - now rewrite Nat.add_0_r.
  - f_equal. lia.
Qed.

(** The parent block of Create in terms of the retry policy. *)
Lemma create_parent_team_policy (newTeam : NewTeam) :
  create_parent_team meta newTeam s =
    let '(r, k) := parent_retry_policy (fun c => getTeamID_answer meta c p)
                     retry (S (st_clock s))
                     (getTeamID_answer meta (st_clock s) p) in
    (match r with
     | ApiOk teamId => Next (with_ParentTeamID teamId newTeam)
     | ApiErr err => Return (Some err)
     end,
     ticks (S k) s, EvGetTeamID p :: retries k (EvGetTeamID p)).
Proof.
  unfold create_parent_team, for_range.
  cbv beta iota zeta delta [bind d_GetOk getTeamID remote].
  fold p. rewrite parent_GetOk.
  rewrite create_parent_loop_policy. cbn [st_clock tick]. fold retry.
  destruct (parent_retry_policy _ retry _ _) as [r k].
  rewrite ticks_S.
  destruct r; cbn; now rewrite ?app_nil_r.
Qed.

(** Claim C4.  With [parent_team_id] set, Create looks the parent up and
    looks it up again after every failed lookup, whatever the error, each
    time after the fixed wait and at most [github_team_api_retry] times.
    If the lookup succeeds at attempt [k] (the first lookup being attempt
    0), Create has made [k] retries and sends the create call with the id
    found.  If the first lookup and all the retries fail, Create returns
    the error of the last one; it has made [github_team_api_retry]
    retries, no create call and no write. *)
Theorem create_parent_lookup_retry :
  (forall k teamId,
      (k <= retry)%nat ->
      (forall j, (j < k)%nat -> err_of (lookup j) <> None) ->
      lookup k = ApiOk teamId ->
      exists o s' t,
        run (resourceGithubTeamCreate meta) s =
          (o, s',
           EvGetTeamID p :: retries k (EvGetTeamID p) ++
           EvCreateTeam (owner_name meta)
             (with_ParentTeamID teamId (team_of_config (st_d s))) :: t))
  /\
  (forall e,
      (forall j, (j < retry)%nat -> err_of (lookup j) <> None) ->
      lookup retry = ApiErr e ->
      run (resourceGithubTeamCreate meta) s =
        (Returned (Some e), ticks (S retry) s,
         EvGetTeamID p :: retries retry (EvGetTeamID p))).
Proof.
  split.
  - intros k teamId Hk Hfail Hok.
    destruct (create_call_first meta
                (with_ParentTeamID teamId (team_of_config (st_d s)))
                (ticks (S k) s)) as (o & s' & t & Hrest).
    exists o, s', t.
    unfold run in *. unfold resourceGithubTeamCreate.
    cbv beta iota zeta delta [bind checkOrganization pure d_Get].
    rewrite org_ok. rewrite create_parent_team_policy.
    rewrite (parent_retry_policy_recovers _ retry k _ _ teamId Hk).
    + destruct (create_call_and_after meta _ (ticks (S k) s))
        as [[r s2] t2].
      destruct r; inversion Hrest; subst; cbn; now rewrite <- ?app_assoc.
    + intros j Hj. rewrite lookup_attempt. now apply Hfail.
    + now rewrite lookup_attempt.
  - intros e Hfail Hlast.
    unfold run. unfold resourceGithubTeamCreate.
    cbv beta iota zeta delta [bind checkOrganization pure d_Get].
    rewrite org_ok. rewrite create_parent_team_policy.
    rewrite parent_retry_policy_exhausts.
    + rewrite lookup_attempt, Hlast. reflexivity.
    + intros j Hj. rewrite lookup_attempt. now apply Hfail.
Qed.

End CreateParent.

Lemma create_parent_lookup_retry_witness :
  (exists o s' t,
      run (resourceGithubTeamCreate meta_parent_late) s_child =
        (o, s',
         EvGetTeamID "platform" :: retries 3 (EvGetTeamID "platform") ++
         EvCreateTeam "acme"
           (with_ParentTeamID 7 (team_of_config (st_d s_child))) :: t))
  /\
  run (resourceGithubTeamCreate meta_parent_never) s_child =
    (Returned (Some e_timeout), ticks 11 s_child,
     EvGetTeamID "platform" :: retries 10 (EvGetTeamID "platform")).
Proof.
  split.
  - apply (proj1 (create_parent_lookup_retry meta_parent_late s_child
                    eq_refl ltac:(discriminate)) 3%nat 7).
    + vm_compute. lia.
    + intros j Hj.
      destruct j as [|[|[|j]]]; [discriminate ..|lia].
    + reflexivity.
  - apply (proj2 (create_parent_lookup_retry meta_parent_never s_child
                    eq_refl ltac:(discriminate)) e_timeout).
    + intros j Hj. cbn.
      match goal with |- context [if ?b then _ else _] => destruct b end;
        discriminate.
    + reflexivity.
Defined.

(** ** Update: the parent reference *)

Lemma update_parent_team_as_create (meta : Owner) (team : NewTeam) (s : State) :
  update_parent_team meta team s = create_parent_team meta team s.
Proof.
  unfold update_parent_team, create_parent_team, for_range.
  cbv beta iota zeta delta [bind d_GetOk getTeamID remote].
  destruct (negb (parent_team_id (st_d s) =? "")%string); [|reflexivity].
  now rewrite update_parent_loop_policy, create_parent_loop_policy.
Qed.

(** Claim C7.  The parent block of Update does what the parent block of
    Create does: from the same state and against the same sequence of
    lookup answers the two end the same way (the same team to send with the
    same parent id, or a return of the same error), after the same calls and
    the same waits.  Both loops are the retry policy of the specification
    run with the one retry count. *)
Theorem update_parent_policy_is_create_policy
    (meta : Owner) (team : NewTeam) (s : State) :
  update_parent_team meta team s = create_parent_team meta team s
  /\
  forall (p : string) (r : api_result Z),
    let policy :=
      let '(r', k) := parent_retry_policy (fun c => getTeamID_answer meta c p)
                        (Z.to_nat github_team_api_retry) (st_clock s) r in
      (Next r', ticks k s, retries k (EvGetTeamID p)) in
    for_range github_team_api_retry (update_parent_body p meta) r s = policy
    /\
    for_range github_team_api_retry (create_parent_body p meta) r s = policy.
Proof.
  split.
  - apply update_parent_team_as_create.
  - intros p r. cbv zeta. unfold for_range. split.
    + apply update_parent_loop_policy.
    + apply create_parent_loop_policy.
Qed.

(** ** Read: the retry loop *)

Lemma read_retry_policy_le {A} (answer : nat -> api_result A) n :
  forall c r, (snd (read_retry_policy answer n c r) <= n)%nat.
Proof.
  induction n as [|n IH]; intros c r; cbn; [lia|].
  destruct r as [x|e]; cbn; [lia|].
  destruct (asErrorResponse e) as [sc|]; cbn; [|lia].
  destruct (sc =? StatusNotModified); cbn; [lia|].
  specialize (IH (S c) (answer c)).
  destruct (read_retry_policy answer n (S c) (answer c)). cbn in *. lia.
Qed.

Lemma read_retry_policy_prefix {A} (answer : nat -> api_result A) k :
  forall n c r,
    (forall j, (j < k)%nat -> retried (attempt answer c r j) = true) ->
    read_retry_policy answer (k + n) c r =
      let '(o, k') := read_retry_policy answer n (c + k)
                        (attempt answer c r k) in
      (o, (k + k')%nat).
Proof.
  induction k as [|k IH]; intros n c r Hretry.
  - cbn [attempt Nat.add]. rewrite Nat.add_0_r.
    now destruct (read_retry_policy answer n c r).
  - pose proof (Hretry O ltac:(lia)) as H0.
    destruct r as [x|e]; cbn in H0; [discriminate|]. unfold retryable in H0.
    cbn [Nat.add read_retry_policy].
    destruct (asErrorResponse e) as [sc|]; [|discriminate].
    destruct (sc =? StatusNotModified); [discriminate|].
    rewrite (IH n (S c) (answer c)).
    + rewrite (attempt_shift answer c (ApiErr e) k).
      replace (S c + k)%nat with (c + S k)%nat by lia.
      now destruct (read_retry_policy answer n (c + S k) _).
    + intros j Hj. rewrite (attempt_shift answer c (ApiErr e) j).
      apply Hretry. lia.
Qed.

Section ReadLoop.

Variable client : V3Client.
Variable ctx : Context.
Variables orgId id : Z.

Let answer := fun c => Teams_GetTeamByID client c ctx orgId id.
Let get := EvGetTeamByID ctx orgId id.

Lemma read_loop_policy n :
  forall i r s,
    for_loop n i (read_retry_body client ctx orgId id) r s =
      let '(o, k) := read_retry_policy answer n (st_clock s) r in
      (o, ticks k s, retries k get).
Proof.
  induction n as [|n IH]; intros i r s.
  - cbn. now rewrite ticks_0.
  - cbn [for_loop read_retry_policy]. unfold read_retry_body at 1.
    destruct r as [x|e].
    + unfold_prims. now rewrite ticks_0.
    + cbn [err_of]. destruct (asErrorResponse e) as [sc|].
      * destruct (sc =? StatusNotModified).
        -- unfold_prims. now rewrite ticks_0.
        -- assert (Hstep :
             forall b : bool,
               bind (if b
                     then time_Sleep github_team_api_wait ;;
                          r' <- GetTeamByID client ctx orgId id ;;
                          pure (Continue r')
                     else time_Sleep github_team_api_wait ;;
                          r' <- GetTeamByID client ctx orgId id ;;
                          pure (Continue r'))
                 (fun c => match c with
                           | Continue x' =>
                               for_loop n (i + 1)
                                 (read_retry_body client ctx orgId id) x'
                           | Break x' => pure x'
                           end) s
               = let '(o, k) := read_retry_policy answer n
                                  (S (st_clock s)) (answer (st_clock s)) in
                 (o, ticks (S k) s, retries (S k) get)).
           { intros b. destruct b; unfold_prims; rewrite IH;
               cbn [st_clock tick]; fold (answer (st_clock s));
               destruct (read_retry_policy answer n (S (st_clock s))
                           (answer (st_clock s))) as [o k];
               now rewrite ticks_S. }
           rewrite Hstep.
           now destruct (read_retry_policy answer n (S (st_clock s))
                           (answer (st_clock s))).
      * unfold_prims. now rewrite ticks_0.
Qed.

End ReadLoop.

Lemma read_finish_ok team resp s :
  read_finish (ApiOk (team, resp)) s
  = (Return None, map_d (read_fields team resp) s, read_writes).
Proof.
  unfold read_finish. destruct (Parent team) as [parent|] eqn:E;
    unfold_prims; unfold read_fields, map_d; cbn; rewrite E; reflexivity.
Qed.

Lemma read_finish_not_modified e s :
  is_not_modified e = true ->
  read_finish (ApiErr e) s = (Return None, s, []).
Proof.
  unfold is_not_modified, is_status, read_finish. intros H.
  destruct (asErrorResponse e) as [sc|]; [|discriminate].
  now rewrite H.
Qed.

Lemma read_finish_not_found e s :
  is_not_found e = true ->
  read_finish (ApiErr e) s
  = (Return None, map_d (with_Id "") s, [EvSetId ""]).
Proof.
  unfold is_not_found, is_status, read_finish. intros H.
  destruct (asErrorResponse e) as [sc|]; [|discriminate].
  rewrite H. apply Z.eqb_eq in H. subst sc. reflexivity.
Qed.

Lemma read_finish_error e s :
  is_not_modified e = false -> is_not_found e = false ->
  read_finish (ApiErr e) s = (Return (Some e), s, []).
Proof.
  unfold is_not_modified, is_not_found, is_status, read_finish. intros H1 H2.
  destruct (asErrorResponse e) as [sc|]; [|reflexivity].
  now rewrite H1, H2.
Qed.

Lemma not_found_retryable e : is_not_found e = true -> retryable e = true.
Proof.
  unfold is_not_found, is_status, retryable.
  destruct (asErrorResponse e) as [sc|]; [|discriminate].
  intros H. apply Z.eqb_eq in H. now subst sc.
Qed.

Lemma not_retryable e :
  retryable e = false -> is_not_modified e = true \/ asErrorResponse e = None.
Proof.
  unfold retryable, is_not_modified, is_status.
  destruct (asErrorResponse e) as [sc|]; [|now right].
  intros H. left. now destruct (sc =? StatusNotModified).
Qed.

Section ReadStops.

Variable client : V3Client.
Variable ctx : Context.
Variables orgId id : Z.

Let answer := fun c => Teams_GetTeamByID client c ctx orgId id.
Let get := EvGetTeamByID ctx orgId id.

(** The loop and the end of Read together: Read ends on the first value
    that is not retried, or on the value of the last retry, and does with
    it what the end of Read does. *)
Lemma read_loop_finish n k i r s :
  (k <= n)%nat ->
  (forall j, (j < k)%nat ->
             retried (attempt answer (st_clock s) r j) = true) ->
  k = n \/ retried (attempt answer (st_clock s) r k) = false ->
  (x <- for_loop n i (read_retry_body client ctx orgId id) r ;;
   read_finish x) s
  = after (retries k get)
      (read_finish (attempt answer (st_clock s) r k) (ticks k s)).
Proof.
  intros Hk Hretry Hstop. unfold bind. rewrite read_loop_policy.
  fold answer. replace n with (k + (n - k))%nat at 1 by lia.
  rewrite (read_retry_policy_prefix answer k _ _ _ Hretry).
  set (rk := attempt answer (st_clock s) r k) in *.
  unfold after.
  destruct (n - k)%nat as [|m] eqn:Hm.
  - cbn [read_retry_policy]. rewrite Nat.add_0_r.
    now destruct (read_finish rk (ticks k s)) as [[o s'] t'].
  - destruct Hstop as [->|Hstop]; [lia|].
    cbn [read_retry_policy]. destruct rk as [x|e].
    + rewrite Nat.add_0_r.
      now destruct (read_finish (ApiOk x) (ticks k s)) as [[o s'] t'].
    + cbn in Hstop. destruct (not_retryable e Hstop) as [H304|Hother].
      * rewrite (read_finish_not_modified e _ H304).
        unfold is_not_modified, is_status in H304.
        destruct (asErrorResponse e) as [sc|]; [|discriminate].
        rewrite H304, Nat.add_0_r. now rewrite app_nil_r.
      * unfold read_finish. rewrite Hother, Nat.add_0_r.
        unfold return_. now rewrite app_nil_r.
Qed.

End ReadStops.

(** ** Read *)

Section Read.

Variable meta : Owner.
Variable s : State.
Variable id : Z.

Hypothesis org_ok : org_check meta = None.
Hypothesis id_ok : ParseInt (Id (st_d s)) = inl id.

Let ctx := read_ctx (st_d s).
Let fetch := fun j =>
  Teams_GetTeamByID (v3client meta) (st_clock s + j)%nat ctx
    (owner_id meta) id.
Let get := EvGetTeamByID ctx (owner_id meta) id.
Let retry := Z.to_nat github_team_api_retry.

Lemma fetch_attempt j :
  attempt (fun c => Teams_GetTeamByID (v3client meta) c ctx (owner_id meta) id)
          (S (st_clock s))
          (Teams_GetTeamByID (v3client meta) (st_clock s) ctx
             (owner_id meta) id) j
  = fetch j.
Proof.
  unfold fetch. destruct j as [|j]; cbn.
  - now rewrite Nat.add_0_r.
  - f_equal. lia.
Qed.

(** Read is the end of Read applied to the fetch the loop stops on. *)
Lemma read_stops_at k :
  (k <= retry)%nat ->
  (forall j, (j < k)%nat -> retried (fetch j) = true) ->
  k = retry \/ retried (fetch k) = false ->
  resourceGithubTeamRead meta s
  = after (get :: retries k get) (read_finish (fetch k) (ticks (S k) s)).
Proof.
  intros Hk Hretry Hstop. unfold resourceGithubTeamRead.
  cbv beta iota zeta delta [checkOrganization d_Get GetTeamByID remote].
  rewrite (bind_Next _ _ s (org_check meta) s [] eq_refl). rewrite org_ok.
  rewrite (bind_Next _ _ s (Id (st_d s)) s [] eq_refl). rewrite id_ok.
  rewrite (bind_Next _ _ s (IsNewResource (st_d s)) s [] eq_refl).
  rewrite (bind_Next _ _ s (etag (st_d s)) s [] eq_refl).
  fold (read_ctx (st_d s)). fold ctx.
  rewrite (bind_Next _ _ s (fetch O) (tick s) [get]).
  2:{ unfold fetch. now rewrite Nat.add_0_r. }
  unfold for_range. fold retry.
  rewrite (read_loop_finish (v3client meta) ctx (owner_id meta) id
             retry k 0 (fetch O) (tick s) Hk).
  - cbn [st_clock tick]. unfold fetch at 1. rewrite Nat.add_0_r.
    rewrite fetch_attempt. rewrite <- ticks_S. fold get.
    unfold after.
    now destruct (read_finish (fetch k) (ticks (S k) s)) as [[o s'] t'].
  - intros j Hj. cbn [st_clock tick]. unfold fetch at 1.
    rewrite Nat.add_0_r, fetch_attempt. now apply Hretry.
  - destruct Hstop as [->|Hstop]; [now left|right].
    cbn [st_clock tick]. unfold fetch at 1.
    now rewrite Nat.add_0_r, fetch_attempt.
Qed.

(** Claim C2.  When the first fetch and every one of the retries answer
    not-found, Read empties the identifier and returns nil; nothing else
    of the local state is written. *)
Theorem read_not_found_on_every_attempt :
  (forall j, (j <= retry)%nat ->
             exists e, fetch j = ApiErr e /\ is_not_found e = true) ->
  run (resourceGithubTeamRead meta) s
  = (Returned None, map_d (with_Id "") (ticks (S retry) s),
     get :: retries retry get ++ [EvSetId ""]).
Proof.
  intros Hnf. unfold run. rewrite (read_stops_at retry).
  - destruct (Hnf retry ltac:(lia)) as (e & He & Hnfe).
    rewrite He, (read_finish_not_found e _ Hnfe). reflexivity.
  - lia.
  - intros j Hj. destruct (Hnf j ltac:(lia)) as (e & He & Hnfe).
    rewrite He. cbn. now apply not_found_retryable.
  - now left.
Qed.

(** Claim C3, as the code has it.  The errors Read fetches again after
    are the [ErrorResponse]s other than not-modified, not-found among
    them; each retry comes after the fixed wait and there are at most
    [github_team_api_retry] of them.  A fetch that succeeds after [k]
    such errors gives the state of the team it returned.  Such an error
    is returned only when it is the answer to the last retry.  An error
    that is not an [ErrorResponse] is returned as soon as it is met,
    without a retry. *)
Theorem read_retries_error_responses :
  (forall e, retryable e = true <->
             exists sc msg, e = ErrorResponse sc msg /\
                            sc <> StatusNotModified)
  /\
  (forall k team resp,
      (k <= retry)%nat ->
      (forall j, (j < k)%nat -> retried (fetch j) = true) ->
      fetch k = ApiOk (team, resp) ->
      run (resourceGithubTeamRead meta) s
      = (Returned None, map_d (read_fields team resp) (ticks (S k) s),
         get :: retries k get ++ read_writes))
  /\
  (forall e,
      (forall j, (j < retry)%nat -> retried (fetch j) = true) ->
      fetch retry = ApiErr e ->
      is_not_modified e = false -> is_not_found e = false ->
      run (resourceGithubTeamRead meta) s
      = (Returned (Some e), ticks (S retry) s, get :: retries retry get))
  /\
  (forall k e,
      (k <= retry)%nat ->
      (forall j, (j < k)%nat -> retried (fetch j) = true) ->
      fetch k = ApiErr e ->
      asErrorResponse e = None ->
      run (resourceGithubTeamRead meta) s
      = (Returned (Some e), ticks (S k) s, get :: retries k get)).
Proof.
  split; [|split; [|split]].
  - intros e. unfold retryable. split.
    + destruct e as [sc msg| | |]; cbn; try discriminate.
      intros H. exists sc, msg. split; [reflexivity|].
      intros ->. discriminate.
    + intros (sc & msg & -> & Hsc). cbn.
      destruct (Z.eqb_spec sc StatusNotModified); [contradiction|reflexivity].
  - intros k team resp Hk Hretry Hok. unfold run.
    rewrite (read_stops_at k Hk Hretry).
    + rewrite Hok, read_finish_ok. reflexivity.
    + right. now rewrite Hok.
  - intros e Hretry Hlast H304 H404. unfold run.
    rewrite (read_stops_at retry (Nat.le_refl _) Hretry).
    + rewrite Hlast, (read_finish_error e _ H304 H404). cbn.
      now rewrite app_nil_r.
    + now left.
  - intros k e Hk Hretry Hek Hother. unfold run.
    rewrite (read_stops_at k Hk Hretry).
    + rewrite Hek, read_finish_error.
      * cbn. now rewrite app_nil_r.
      * unfold is_not_modified, is_status. now rewrite Hother.
      * unfold is_not_found, is_status. now rewrite Hother.
    + right. rewrite Hek. cbn. unfold retryable. now rewrite Hother.
Qed.

(** Claim C5.  For a resource that is not new, the fetches of Read carry
    the stored etag.  When the answer is not-modified (to the first
    fetch, or to a retry), Read returns nil; the local state is the one
    it started from and no write was made. *)
Theorem read_not_modified_is_noop (k : nat) :
  IsNewResource (st_d s) = false ->
  (k <= retry)%nat ->
  (forall j, (j < k)%nat -> retried (fetch j) = true) ->
  (exists e, fetch k = ApiErr e /\ is_not_modified e = true) ->
  ctxEtag ctx = Some (etag (st_d s))
  /\ run (resourceGithubTeamRead meta) s
     = (Returned None, ticks (S k) s, get :: retries k get)
  /\ st_d (ticks (S k) s) = st_d s
  /\ count is_write (get :: retries k get) = O.
Proof.
  intros Hnew Hk Hretry (e & He & H304). repeat split.
  - unfold ctx, read_ctx. now rewrite Hnew.
  - unfold run. rewrite (read_stops_at k Hk Hretry).
    + rewrite He, (read_finish_not_modified e _ H304). cbn.
      now rewrite app_nil_r.
    + right. rewrite He. cbn. unfold retryable.
      unfold is_not_modified, is_status in H304.
      destruct (asErrorResponse e) as [sc|]; [|discriminate].
      now rewrite H304.
  - unfold count. cbn. clear. induction k as [|k IH]; [reflexivity|].
    cbn. exact IH.
Qed.

End Read.

Lemma read_not_found_on_every_attempt_witness :
  run (resourceGithubTeamRead meta_get_404) s_core
  = (Returned None, {| st_d := with_Id "" d_core; st_clock := 11 |},
     EvGetTeamByID (read_ctx d_core) 1 42
       :: retries 10 (EvGetTeamByID (read_ctx d_core) 1 42) ++ [EvSetId ""]).
Proof.
  apply (read_not_found_on_every_attempt meta_get_404 s_core 42
           eq_refl eq_refl).
  intros j _. exists e404. split; reflexivity.
Defined.

Lemma read_retries_error_responses_witness :
  run (resourceGithubTeamRead meta_get_404_thrice) s_core
  = (Returned None,
     {| st_d := read_fields team_core resp_core d_core; st_clock := 4 |},
     EvGetTeamByID (read_ctx d_core) 1 42
       :: retries 3 (EvGetTeamByID (read_ctx d_core) 1 42) ++ read_writes).
Proof.
  apply (proj1 (proj2 (read_retries_error_responses meta_get_404_thrice
                         s_core 42 eq_refl eq_refl)) 3%nat).
  - vm_compute. lia.
  - intros j Hj. destruct j as [|[|[|j]]]; [reflexivity ..|lia].
  - reflexivity.
Defined.

(** Claim C3 as stated does not hold: a first fetch failing with an error
    that is not an [ErrorResponse] (and not not-modified) ends Read at once
    with that error, after one call and no wait, although the fetch a retry
    would have made succeeds. *)
Lemma read_returns_other_error_without_retry :
  Teams_GetTeamByID (v3client meta_get_rate_limited) 0 (read_ctx d_core) 1 42
    = ApiErr e_rate /\
  is_not_modified e_rate = false /\
  Teams_GetTeamByID (v3client meta_get_rate_limited) 1 (read_ctx d_core) 1 42
    = ApiOk (team_core, resp_core) /\
  run (resourceGithubTeamRead meta_get_rate_limited) s_core
    = (Returned (Some e_rate), tick s_core,
       [EvGetTeamByID (read_ctx d_core) 1 42]).
Proof. repeat split. Qed.

Lemma read_not_modified_is_noop_witness :
  ctxEtag (read_ctx d_core) = Some "W/etag-1"
  /\ run (resourceGithubTeamRead meta_get_304) s_core
     = (Returned None, {| st_d := d_core; st_clock := 1 |},
        [EvGetTeamByID (read_ctx d_core) 1 42])
  /\ st_d (ticks 1 s_core) = d_core
  /\ count is_write [EvGetTeamByID (read_ctx d_core) 1 42] = O.
Proof.
  apply (read_not_modified_is_noop meta_get_304 s_core 42 eq_refl eq_refl
           0%nat eq_refl).
  - vm_compute. lia.
  - intros j Hj. lia.
  - exists e304. split; reflexivity.
Defined.

(** ** Counting the events of a run *)

Lemma count_app p t1 t2 : count p (t1 ++ t2) = (count p t1 + count p t2)%nat.
Proof. unfold count. now rewrite filter_app, length_app. Qed.

Lemma count_cons p e t :
  count p (e :: t) = ((if p e then 1 else 0) + count p t)%nat.
Proof. unfold count. cbn. now destruct (p e). Qed.

Lemma snd_run m s : snd (run m s) = snd (m s).
Proof. unfold run. now destruct (m s) as [[[e|e|] s1] t1]. Qed.

Section Counting.

Variable p : Event -> bool.

Lemma count_le_weaken {A} (m : M A) a b :
  count_le p m a -> (a <= b)%nat -> count_le p m b.
Proof. intros H Hab s. specialize (H s). lia. Qed.

Lemma count_le_pure {A} (a : A) : count_le p (pure a) 0.
Proof. intros s. cbn. lia. Qed.

Lemma count_le_return {A} e : count_le p (@return_ A e) 0.
Proof. intros s. cbn. lia. Qed.

Lemma count_le_panic {A} : count_le p (@panic A) 0.
Proof. intros s. cbn. lia. Qed.

Lemma count_le_d_Get {A} (f : ResourceData -> A) : count_le p (d_Get f) 0.
Proof. intros s. cbn. lia. Qed.

Lemma count_le_d_GetOk f : count_le p (d_GetOk f) 0.
Proof. intros s. cbn. lia. Qed.

Lemma count_le_d_HasChange f g : count_le p (d_HasChange f g) 0.
Proof. intros s. cbn. lia. Qed.

Lemma count_le_checkOrganization meta : count_le p (checkOrganization meta) 0.
Proof. intros s. cbn. lia. Qed.

Lemma count_le_d_Set key upd c :
  count p [EvSet key] = c -> count_le p (d_Set key upd) c.
Proof. intros <- s. cbn. lia. Qed.

Lemma count_le_d_SetId v c :
  count p [EvSetId v] = c -> count_le p (d_SetId v) c.
Proof. intros <- s. cbn. lia. Qed.

Lemma count_le_time_Sleep secs c :
  count p [EvSleep secs] = c -> count_le p (time_Sleep secs) c.
Proof. intros <- s. cbn. lia. Qed.

Lemma count_le_remote {A} ev (answer : nat -> A) c :
  count p [ev] = c -> count_le p (remote ev answer) c.
Proof. intros <- s. cbn. lia. Qed.

Lemma count_le_bind {A B} (m : M A) (f : A -> M B) a b :
  count_le p m a -> (forall x, count_le p (f x) b) ->
  count_le p (bind m f) (a + b).
Proof.
  intros Hm Hf s. unfold bind. specialize (Hm s).
  destruct (m s) as [[[x|e|] s1] t1]; cbn [snd] in *; try lia.
  specialize (Hf x s1). destruct (f x s1) as [[r s2] t2]. cbn [snd] in *.
  rewrite count_app. lia.
Qed.

Lemma count_le_call m b : count_le p m b -> count_le p (call m) b.
Proof.
  intros Hm s. unfold call. specialize (Hm s).
  now destruct (m s) as [[[x|e|] s1] t1].
Qed.

Lemma count_le_for_loop {X} (body : Z -> X -> M (ctl X)) a n :
  (forall i x, count_le p (body i x) a) ->
  forall i x, count_le p (for_loop n i body x) (n * a).
Proof.
  intros Hbody. induction n as [|n IH]; intros i x.
  - apply count_le_pure.
  - cbn [for_loop]. apply (count_le_weaken _ (a + n * a)); [|lia].
    apply count_le_bind; [apply Hbody|].
    intros [x'|x'].
    + apply IH.
    + apply (count_le_weaken _ 0); [apply count_le_pure|lia].
Qed.

Lemma count_le_for_range {X} (body : Z -> X -> M (ctl X)) a hi x :
  (forall i x, count_le p (body i x) a) ->
  count_le p (for_range hi body x) (Z.to_nat hi * a).
Proof. intros H. now apply count_le_for_loop. Qed.

Lemma count_le_for_each {A} (body : A -> M unit) a l :
  (forall x, count_le p (body x) a) ->
  count_le p (for_each l body) (List.length l * a).
Proof.
  intros Hbody. induction l as [|x l IH].
  - apply count_le_pure.
  - cbn [for_each List.length]. apply (count_le_weaken _ (a + List.length l * a)); [|lia].
    apply count_le_bind; [apply Hbody|]. intros _. apply IH.
Qed.

Lemma count_le_for_each_none {A} (body : A -> M unit) l :
  (forall x, count_le p (body x) 0) -> count_le p (for_each l body) 0.
Proof.
  intros Hbody. apply (count_le_weaken _ (List.length l * 0)); [|lia].
  now apply count_le_for_each.
Qed.

Lemma count_le_if {A} (c : bool) (m1 m2 : M A) b1 b2 :
  count_le p m1 b1 -> count_le p m2 b2 ->
  count_le p (if c then m1 else m2) (Nat.max b1 b2).
Proof.
  intros H1 H2. destruct c;
    [apply (count_le_weaken _ b1)|apply (count_le_weaken _ b2)];
    auto; lia.
Qed.

Lemma count_le_option {A X} (o : option X) (f : X -> M A) (g : M A) b1 b2 :
  (forall x, count_le p (f x) b1) -> count_le p g b2 ->
  count_le p (match o with Some x => f x | None => g end) (Nat.max b1 b2).
Proof.
  intros H1 H2. destruct o;
    [apply (count_le_weaken _ b1)|apply (count_le_weaken _ b2)];
    auto; lia.
Qed.

Lemma count_le_api {A X} (r : api_result X) (f : X -> M A) (g : error -> M A)
    b1 b2 :
  (forall x, count_le p (f x) b1) -> (forall e, count_le p (g e) b2) ->
  count_le p (match r with ApiOk x => f x | ApiErr e => g e end)
           (Nat.max b1 b2).
Proof.
  intros H1 H2. destruct r;
    [apply (count_le_weaken _ b1)|apply (count_le_weaken _ b2)];
    auto; lia.
Qed.

Lemma count_le_sum {A X Y} (r : X + Y) (f : X -> M A) (g : Y -> M A) b1 b2 :
  (forall x, count_le p (f x) b1) -> (forall y, count_le p (g y) b2) ->
  count_le p (match r with inl x => f x | inr y => g y end) (Nat.max b1 b2).
Proof.
  intros H1 H2. destruct r;
    [apply (count_le_weaken _ b1)|apply (count_le_weaken _ b2)];
    auto; lia.
Qed.

Lemma count_le_prod {A X Y} (r : X * Y) (f : X -> Y -> M A) b :
  (forall x y, count_le p (f x y) b) ->
  count_le p (let '(x, y) := r in f x y) b.
Proof. intros H. destruct r. apply H. Qed.

End Counting.

(** The bound of a block made of the statements above, read off its text. *)
Ltac bound :=
  cbv zeta;
  lazymatch goal with
  | H : count_le ?p ?m _ |- count_le ?p ?m _ => exact H
  | H : forall slug, count_le ?p (removeDefaultMaintainer slug ?meta) _
    |- count_le ?p (removeDefaultMaintainer _ ?meta) _ => apply H
  | |- count_le _ (bind _ _) _ =>
      eapply count_le_bind; [bound | intros ?; bound]
  | |- count_le _ (pure _) _ => apply count_le_pure
  | |- count_le _ (return_ _) _ => apply count_le_return
  | |- count_le _ panic _ => apply count_le_panic
  | |- count_le _ (d_Get _) _ => apply count_le_d_Get
  | |- count_le _ (d_GetOk _) _ => apply count_le_d_GetOk
  | |- count_le _ (d_HasChange _ _) _ => apply count_le_d_HasChange
  | |- count_le _ (checkOrganization _) _ => apply count_le_checkOrganization
  | |- count_le _ (d_Set _ _) _ => apply count_le_d_Set; cbn; reflexivity
  | |- count_le _ (d_SetId _) _ => apply count_le_d_SetId; cbn; reflexivity
  | |- count_le _ (time_Sleep _) _ =>
      apply count_le_time_Sleep; cbn; reflexivity
  | |- count_le _ (remote _ _) _ => apply count_le_remote; cbn; reflexivity
  | |- count_le _ (call _) _ => apply count_le_call; bound
  | |- count_le _ (for_range _ _ _) _ =>
      eapply count_le_for_range; intros ? ?; bound
  | |- count_le _ (for_each _ _) _ =>
      eapply count_le_for_each_none; intros ?;
      eapply count_le_weaken; [bound | vm_compute; lia]
  | |- count_le _ (match _ with Some _ => _ | None => _ end) _ =>
      eapply count_le_option; [intros ?; bound | bound]
  | |- count_le _ (match _ with ApiOk _ => _ | ApiErr _ => _ end) _ =>
      eapply count_le_api; [intros ?; bound | intros ?; bound]
  | |- count_le _ (match _ with inl _ => _ | inr _ => _ end) _ =>
      eapply count_le_sum; [intros ?; bound | intros ?; bound]
  | |- count_le _ (match _ with pair _ _ => _ end) _ =>
      eapply count_le_prod; intros ? ?; bound
  | |- count_le _ (match _ with true => _ | false => _ end) _ =>
      eapply count_le_if; [bound | bound]
  | |- count_le _ ?m _ =>
      let h := lazymatch m with
               | ?h _ _ _ _ _ _ => h
               | ?h _ _ _ _ _ => h
               | ?h _ _ _ _ => h
               | ?h _ _ _ => h
               | ?h _ _ => h
               | ?h _ => h
               end in
      unfold h; bound
  end.

(** The bound read off the text, then relaxed to the one stated. *)
Ltac bound_by_text :=
  eapply count_le_weaken;
  [bound | change (Z.to_nat github_team_api_retry) with 10%nat; lia].

(** ** Events a block never emits, and blocks that leave [d] alone *)

Lemma count_none p q t :
  Forall (fun e => q e = true) t ->
  (forall e, q e = true -> p e = false) ->
  count p t = O.
Proof.
  intros Ht Hpq. induction Ht as [|e t He _ IH]; [reflexivity|].
  rewrite count_cons, IH, (Hpq e He). reflexivity.
Qed.

Section Only.

Variable q : Event -> bool.

Lemma only_nil {A} (m : M A) : (forall s, snd (m s) = []) -> only q m.
Proof. intros H s. rewrite H. constructor. Qed.

Lemma only_one {A} (m : M A) ev :
  (forall s, snd (m s) = [ev]) -> q ev = true -> only q m.
Proof. intros H Hq s. rewrite H. now repeat constructor. Qed.

Lemma only_bind {A B} (m : M A) (f : A -> M B) :
  only q m -> (forall x, only q (f x)) -> only q (bind m f).
Proof.
  intros Hm Hf s. unfold bind. specialize (Hm s).
  destruct (m s) as [[[x|e|] s1] t1]; cbn [snd] in *; auto.
  specialize (Hf x s1). destruct (f x s1) as [[r s2] t2]. cbn [snd] in *.
  apply Forall_app. now split.
Qed.

Lemma only_call m : only q m -> only q (call m).
Proof.
  intros Hm s. unfold call. specialize (Hm s).
  now destruct (m s) as [[[x|e|] s1] t1].
Qed.

Lemma only_for_loop {X} (body : Z -> X -> M (ctl X)) n :
  (forall i x, only q (body i x)) ->
  forall i x, only q (for_loop n i body x).
Proof.
  intros Hbody. induction n as [|n IH]; intros i x.
  - now apply only_nil.
  - cbn [for_loop]. apply only_bind; [apply Hbody|].
    intros [x'|x']; [apply IH|now apply only_nil].
Qed.

Lemma only_for_each {A} (body : A -> M unit) l :
  (forall x, only q (body x)) -> only q (for_each l body).
Proof.
  intros Hbody. induction l as [|x l IH].
  - now apply only_nil.
  - cbn [for_each]. apply only_bind; [apply Hbody|]. intros _. apply IH.
Qed.

End Only.

Ltac only_events :=
  cbv zeta;
  lazymatch goal with
  | H : only ?q ?m |- only ?q ?m => exact H
  | |- only _ (bind _ _) =>
      apply only_bind; [only_events | intros ?; only_events]
  | |- only _ (pure _) => now apply only_nil
  | |- only _ (return_ _) => now apply only_nil
  | |- only _ panic => now apply only_nil
  | |- only _ (d_Get _) => now apply only_nil
  | |- only _ (d_GetOk _) => now apply only_nil
  | |- only _ (d_HasChange _ _) => now apply only_nil
  | |- only _ (checkOrganization _) => now apply only_nil
  | |- only _ (d_Set ?k _) => now apply (only_one _ _ (EvSet k))
  | |- only _ (d_SetId ?v) => now apply (only_one _ _ (EvSetId v))
  | |- only _ (time_Sleep ?n) => now apply (only_one _ _ (EvSleep n))
  | |- only _ (remote ?ev _) => now apply (only_one _ _ ev)
  | |- only _ (call _) => apply only_call; only_events
  | |- only _ (for_range _ _ _) =>
      apply only_for_loop; intros ? ?; only_events
  | |- only _ (for_each _ _) => apply only_for_each; intros ?; only_events
  | |- only _ (match ?x with _ => _ end) => destruct x; only_events
  | |- only _ ?m =>
      let h := lazymatch m with
               | ?h _ _ _ _ _ _ => h
               | ?h _ _ _ _ _ => h
               | ?h _ _ _ _ => h
               | ?h _ _ _ => h
               | ?h _ _ => h
               | ?h _ => h
               end in
      unfold h; only_events
  end.

Section KeepsD.

Lemma keeps_d_same {A} (m : M A) :
  (forall s, snd (fst (m s)) = s \/ snd (fst (m s)) = tick s) -> keeps_d m.
Proof. intros H s. now destruct (H s) as [-> | ->]. Qed.

Lemma keeps_d_bind {A B} (m : M A) (f : A -> M B) :
  keeps_d m -> (forall x, keeps_d (f x)) -> keeps_d (bind m f).
Proof.
  intros Hm Hf s. unfold bind. specialize (Hm s).
  destruct (m s) as [[[x|e|] s1] t1]; cbn [fst snd] in *; auto.
  specialize (Hf x s1). destruct (f x s1) as [[r s2] t2].
  cbn [fst snd] in *. congruence.
Qed.

Lemma keeps_d_call m : keeps_d m -> keeps_d (call m).
Proof.
  intros Hm s. unfold call. specialize (Hm s).
  now destruct (m s) as [[[x|e|] s1] t1].
Qed.

Lemma keeps_d_for_loop {X} (body : Z -> X -> M (ctl X)) n :
  (forall i x, keeps_d (body i x)) ->
  forall i x, keeps_d (for_loop n i body x).
Proof.
  intros Hbody. induction n as [|n IH]; intros i x.
  - now intros s.
  - cbn [for_loop]. apply keeps_d_bind; [apply Hbody|].
    intros [x'|x']; [apply IH|now intros s].
Qed.

Lemma keeps_d_for_each {A} (body : A -> M unit) l :
  (forall x, keeps_d (body x)) -> keeps_d (for_each l body).
Proof.
  intros Hbody. induction l as [|x l IH].
  - now intros s.
  - cbn [for_each]. apply keeps_d_bind; [apply Hbody|]. intros _. apply IH.
Qed.

End KeepsD.

Ltac keeps :=
  cbv zeta;
  lazymatch goal with
  | |- keeps_d (bind _ _) => apply keeps_d_bind; [keeps | intros ?; keeps]
  | |- keeps_d (pure _) => now intros ?
  | |- keeps_d (return_ _) => now intros ?
  | |- keeps_d panic => now intros ?
  | |- keeps_d (d_Get _) => now intros ?
  | |- keeps_d (d_GetOk _) => now intros ?
  | |- keeps_d (d_HasChange _ _) => now intros ?
  | |- keeps_d (checkOrganization _) => now intros ?
  | |- keeps_d (time_Sleep _) => now intros ?
  | |- keeps_d (remote _ _) => now intros ?
  | |- keeps_d (call _) => apply keeps_d_call; keeps
  | |- keeps_d (for_range _ _ _) => apply keeps_d_for_loop; intros ? ?; keeps
  | |- keeps_d (for_each _ _) => apply keeps_d_for_each; intros ?; keeps
  | |- keeps_d (match ?x with _ => _ end) => destruct x; keeps
  | |- keeps_d ?m =>
      let h := lazymatch m with
               | ?h _ _ _ _ _ _ => h
               | ?h _ _ _ _ _ => h
               | ?h _ _ _ _ => h
               | ?h _ _ _ => h
               | ?h _ _ => h
               | ?h _ => h
               end in
      unfold h; keeps
  end.


Lemma removeDefaultMaintainer_keeps_d slug meta :
  keeps_d (removeDefaultMaintainer slug meta).
Proof. keeps. Qed.

Lemma create_parent_team_keeps_d meta t : keeps_d (create_parent_team meta t).
Proof. keeps. Qed.

Lemma update_parent_team_keeps_d meta t : keeps_d (update_parent_team meta t).
Proof. keeps. Qed.


(** ** The budget of the retry loops *)

Section Budget.

Variable meta : Owner.








(** The members the membership query may return: at most [N]. *)
Variable N : nat.
Hypothesis members_le :
  forall n teamSlug login l,
    Query_TeamMembers (v4client meta) n teamSlug login = ApiOk l ->
    (List.length l <= N)%nat.



End Budget.










(** ** Create: the create call and the side effects *)

Lemma removeDefaultMaintainer_no_write teamSlug meta :
  only no_write (removeDefaultMaintainer teamSlug meta).
Proof. only_events. Qed.

Lemma create_no_delete meta : only no_delete (resourceGithubTeamCreate meta).
Proof. only_events. Qed.

Lemma create_one_create_call meta :
  count_le is_create (resourceGithubTeamCreate meta) 1.
Proof. bound_by_text. Qed.

Lemma create_one_query meta :
  count_le is_query (resourceGithubTeamCreate meta) 1.
Proof. bound_by_text. Qed.

Lemma create_one_ldap_call meta :
  count_le is_ldap (resourceGithubTeamCreate meta) 1.
Proof. bound_by_text. Qed.

Lemma create_call_and_after_one_create_call meta newTeam :
  count_le is_create (create_call_and_after meta newTeam) 1.
Proof. bound_by_text. Qed.

Section CreateCall.

Variable meta : Owner.
Variable s : State.
Variable newTeam : NewTeam.
Variable githubTeam : Team.

Hypothesis created :
  Teams_CreateTeam (v3client meta) (st_clock s) (owner_name meta) newTeam
  = ApiOk githubTeam.

Let create := EvCreateTeam (owner_name meta) newTeam.
Let ldap := EvUpdateTeamLDAPMapping Background (GetID githubTeam)
              (ldap_dn (st_d s)).

Lemma maintainers_done_keeps_d s1 t1 :
  maintainers_done meta s githubTeam s1 t1 -> st_d s1 = st_d s.
Proof.
  intros [(_ & -> & _)|(_ & teamSlug & _ & H)]; [reflexivity|].
  pose proof (removeDefaultMaintainer_keeps_d teamSlug meta (tick s)) as K.
  now rewrite H in K.
Qed.

Lemma create_maintainers_fail teamSlug e s1 t1 :
  create_default_maintainer (st_d s) = false ->
  Slug githubTeam = Some teamSlug ->
  removeDefaultMaintainer teamSlug meta (tick s) = (Return (Some e), s1, t1) ->
  create_call_and_after meta newTeam s = (Return (Some e), s1, create :: t1).
Proof.
  intros Hcdm Hslug Hremove. unfold create_call_and_after. unfold_prims.
  rewrite created. change (st_d (tick s)) with (st_d s).
  rewrite Hcdm. cbn [negb]. rewrite Hslug, Hremove.
  cbn. now rewrite app_nil_r.
Qed.

Lemma create_ldap_fails e s1 t1 :
  maintainers_done meta s githubTeam s1 t1 ->
  ldap_dn (st_d s) <> "" ->
  Admin_UpdateTeamLDAPMapping (v3client meta) (st_clock s1) Background
    (GetID githubTeam) (ldap_dn (st_d s)) = Some e ->
  create_call_and_after meta newTeam s
  = (Return (Some e), tick s1, create :: t1 ++ [ldap]).
Proof.
  intros Hdone Hdn Hldap. pose proof (maintainers_done_keeps_d _ _ Hdone) as Hd.
  assert (Hne : negb (ldap_dn (st_d s) =? "")%string = true).
  { destruct (String.eqb_spec (ldap_dn (st_d s)) ""); [contradiction|easy]. }
  unfold create_call_and_after. unfold_prims.
  rewrite created. change (st_d (tick s)) with (st_d s).
  destruct Hdone as [(Hcdm & -> & ->)|(Hcdm & teamSlug & Hslug & Hremove)].
  - rewrite Hcdm. cbn [negb]. change (st_d (tick s)) with (st_d s).
    rewrite Hne, Hldap. reflexivity.
  - rewrite Hcdm. cbn [negb]. rewrite Hslug, Hremove.
    rewrite Hd, Hne, Hldap. cbn. now rewrite app_nil_r.
Qed.

End CreateCall.

Lemma count_retries_none p ev k :
  p (EvSleep github_team_api_wait) = false -> p ev = false ->
  count p (retries k ev) = O.
Proof.
  intros Hs He. induction k as [|k IH]; [reflexivity|].
  cbn [retries]. now rewrite !count_cons, Hs, He, IH.
Qed.

Lemma parent_resolved_block meta s newTeam s0 t0 :
  parent_resolved meta s newTeam s0 t0 ->
  create_parent_team meta (team_of_config (st_d s)) s = (Next newTeam, s0, t0).
Proof.
  intros [(Hp & -> & -> & ->)|(Hp & k & teamId & Hk & Hfail & Hok & -> & -> & ->)].
  - unfold create_parent_team.
    cbv beta iota zeta delta [bind d_GetOk pure]. now rewrite Hp.
  - rewrite (create_parent_team_policy meta s Hp).
    rewrite (parent_retry_policy_recovers _ _ k _ _ teamId Hk).
    + reflexivity.
    + intros j Hj. rewrite lookup_attempt. now apply Hfail.
    + now rewrite lookup_attempt.
Qed.

Lemma parent_resolved_quiet meta s newTeam s0 t0 :
  parent_resolved meta s newTeam s0 t0 ->
  st_d s0 = st_d s
  /\ count is_create t0 = O /\ count is_edit t0 = O
  /\ count is_write t0 = O /\ count is_ldap t0 = O.
Proof.
  intros [(Hp & -> & -> & ->)|(Hp & k & teamId & Hk & Hfail & Hok & -> & -> & ->)].
  - now repeat split.
  - repeat split; rewrite count_cons; cbn [is_create is_edit is_write is_ldap];
      now rewrite count_retries_none.
Qed.

Lemma create_run_after_parent meta s newTeam s0 t0 :
  org_check meta = None ->
  parent_resolved meta s newTeam s0 t0 ->
  run (resourceGithubTeamCreate meta) s
  = (let '(o, s', t') := run (create_call_and_after meta newTeam) s0 in
     (o, s', t0 ++ t')).
Proof.
  intros Horg Hparent. unfold run, resourceGithubTeamCreate.
  cbv beta iota zeta delta [bind checkOrganization pure d_Get].
  rewrite Horg, (parent_resolved_block _ _ _ _ _ Hparent).
  destruct (create_call_and_after meta newTeam s0) as [[[x|x|] s'] t'];
    reflexivity.
Qed.

Lemma maintainers_done_no_write meta s githubTeam s1 t1 :
  maintainers_done meta s githubTeam s1 t1 -> count is_write t1 = O.
Proof.
  intros [(_ & _ & ->)|(_ & teamSlug & _ & H)]; [reflexivity|].
  apply (count_none is_write no_write).
  - pose proof (removeDefaultMaintainer_no_write teamSlug meta (tick s)) as K.
    now rewrite H in K.
  - intros ev. unfold no_write. now destruct (is_write ev).
Qed.

(** Claim C6.  Every run of Create makes at most one create call, one
    membership query and one LDAP mapping call, and never a delete call.
    With the organization check passed and the parent block gone through,
    Create makes the create call right after that block, and its run holds
    exactly one create call.  When that call has created the team and the
    removal of the default maintainers returns an error, or the LDAP
    mapping call does, Create returns that error; nothing was written, so
    the local state, the identifier with it, is the one Create started
    from, and the team created is left as it is. *)
Theorem create_single_call_no_rollback
    (meta : Owner) (s : State) (newTeam : NewTeam) (s0 : State)
    (t0 : list Event) :
  org_check meta = None ->
  parent_resolved meta s newTeam s0 t0 ->
  let create := EvCreateTeam (owner_name meta) newTeam in
  (forall s',
      let t := snd (run (resourceGithubTeamCreate meta) s') in
      (count is_create t <= 1)%nat /\ (count is_query t <= 1)%nat /\
      (count is_ldap t <= 1)%nat /\ count is_delete t = O)
  /\
  (exists o s' t,
      run (resourceGithubTeamCreate meta) s = (o, s', t0 ++ create :: t)
      /\ count is_create (t0 ++ create :: t) = 1%nat)
  /\
  (forall githubTeam,
      Teams_CreateTeam (v3client meta) (st_clock s0) (owner_name meta) newTeam
      = ApiOk githubTeam ->
      (forall teamSlug e s1 t1,
          create_default_maintainer (st_d s) = false ->
          Slug githubTeam = Some teamSlug ->
          removeDefaultMaintainer teamSlug meta (tick s0)
          = (Return (Some e), s1, t1) ->
          run (resourceGithubTeamCreate meta) s
          = (Returned (Some e), s1, t0 ++ create :: t1)
          /\ st_d s1 = st_d s
          /\ count is_write (t0 ++ create :: t1) = O)
      /\
      (forall e s1 t1,
          maintainers_done meta s0 githubTeam s1 t1 ->
          ldap_dn (st_d s) <> "" ->
          Admin_UpdateTeamLDAPMapping (v3client meta) (st_clock s1) Background
            (GetID githubTeam) (ldap_dn (st_d s)) = Some e ->
          run (resourceGithubTeamCreate meta) s
          = (Returned (Some e), tick s1,
             t0 ++ create :: t1 ++
             [EvUpdateTeamLDAPMapping Background (GetID githubTeam)
                (ldap_dn (st_d s))])
          /\ st_d (tick s1) = st_d s
          /\ count is_write
               (t0 ++ create :: t1 ++
                [EvUpdateTeamLDAPMapping Background (GetID githubTeam)
                   (ldap_dn (st_d s))]) = O)).
Proof.
  intros Horg Hparent. cbv zeta.
  pose proof (create_run_after_parent meta s newTeam s0 t0 Horg Hparent)
    as Hrun.
  destruct (parent_resolved_quiet meta s newTeam s0 t0 Hparent)
    as (Hd & Hc0 & _ & Hw0 & _).
  split; [|split].
  - intros s'. rewrite snd_run. repeat split.
    + apply create_one_create_call.
    + apply create_one_query.
    + apply create_one_ldap_call.
    + apply (count_none is_delete no_delete).
      * apply create_no_delete.
      * intros e. unfold no_delete. now destruct (is_delete e).
  - destruct (create_call_first meta newTeam s0) as (o & s' & t & H).
    rewrite H in Hrun. exists o, s', t. split; [exact Hrun|].
    pose proof (create_call_and_after_one_create_call meta newTeam s0) as Hle.
    rewrite <- snd_run, H in Hle. cbn [snd] in Hle.
    rewrite count_cons in Hle. cbn [is_create] in Hle.
    rewrite count_app, count_cons, Hc0. cbn [is_create]. lia.
  - intros githubTeam Hcreated. split.
    + intros teamSlug e s1 t1 Hcdm Hslug Hremove.
      rewrite <- Hd in Hcdm. rewrite Hrun. unfold run.
      rewrite (create_maintainers_fail meta s0 newTeam githubTeam Hcreated
                 teamSlug e s1 t1 Hcdm Hslug Hremove).
      split; [reflexivity|]. split.
      * pose proof (removeDefaultMaintainer_keeps_d teamSlug meta (tick s0))
          as K. rewrite Hremove in K. cbn [fst snd] in K.
        change (st_d (tick s0)) with (st_d s0) in K. congruence.
      * rewrite count_app, count_cons, Hw0. cbn [is_write].
        apply (count_none is_write no_write).
        -- pose proof (removeDefaultMaintainer_no_write teamSlug meta
                         (tick s0)) as K. now rewrite Hremove in K.
        -- intros ev. unfold no_write. now destruct (is_write ev).
    + intros e s1 t1 Hdone Hdn Hldap.
      rewrite <- Hd in Hdn, Hldap. rewrite Hrun. unfold run.
      rewrite (create_ldap_fails meta s0 newTeam githubTeam Hcreated
                 e s1 t1 Hdone Hdn Hldap).
      rewrite Hd. split; [reflexivity|]. split.
      * change (st_d (tick s1)) with (st_d s1).
        rewrite (maintainers_done_keeps_d meta s0 githubTeam _ _ Hdone).
        exact Hd.
      * rewrite count_app, count_cons, count_app, Hw0.
        rewrite (maintainers_done_no_write meta s0 githubTeam _ _ Hdone).
        reflexivity.
Qed.

(** The removal of the one default maintainer is refused: Create returns
    that error after the create call, the query and the removal call. *)
Lemma create_single_call_no_rollback_witness :
  run (resourceGithubTeamCreate meta_remove_refused) s_core
  = (Returned (Some e403), {| st_d := d_core; st_clock := 3 |},
     [] ++
     EvCreateTeam "acme" (team_of_config d_core)
       :: [EvQueryMembers "core" "acme";
           EvRemoveTeamMembershipBySlug "acme" "core" "octocat"])
  /\ d_core = d_core
  /\ count is_write
       ([] ++
        EvCreateTeam "acme" (team_of_config d_core)
          :: [EvQueryMembers "core" "acme";
              EvRemoveTeamMembershipBySlug "acme" "core" "octocat"]) = O.
Proof.
  refine (proj1 (proj2 (proj2 (create_single_call_no_rollback
                                 meta_remove_refused s_core
                                 (team_of_config d_core) s_core []
                                 eq_refl _))
                   team_core eq_refl)
            "core" e403 {| st_d := d_core; st_clock := 3 |}
            [EvQueryMembers "core" "acme";
             EvRemoveTeamMembershipBySlug "acme" "core" "octocat"]
            eq_refl eq_refl eq_refl).
  left. repeat split.
Defined.

(** ** Update: the edit call and the LDAP mapping *)

Lemma read_no_ldap meta : only no_ldap (resourceGithubTeamRead meta).
Proof. only_events. Qed.

Lemma update_parent_team_no_ldap meta t :
  only no_ldap (update_parent_team meta t).
Proof. only_events. Qed.

Lemma no_ldap_count t :
  Forall (fun e => no_ldap e = true) t -> count is_ldap t = O.
Proof.
  intros H. apply (count_none is_ldap no_ldap _ H).
  intros e. unfold no_ldap. now destruct (is_ldap e).
Qed.

Lemma update_one_edit_call meta :
  count_le is_edit (resourceGithubTeamUpdate meta) 1.
Proof. bound_by_text. Qed.

Lemma update_one_ldap_call meta :
  count_le is_ldap (resourceGithubTeamUpdate meta) 1.
Proof. bound_by_text. Qed.

Lemma update_call_and_after_one_edit_call meta team :
  count_le is_edit (update_call_and_after meta team) 1.
Proof. bound_by_text. Qed.

Section UpdateCall.

Variable meta : Owner.
Variable s : State.
Variable editedTeam : NewTeam.

Let ctx := WithId Background (Id (st_d s)).

Lemma update_call_unchanged_no_ldap :
  prior_ldap_dn (st_d s) = ldap_dn (st_d s) ->
  count is_ldap (snd (update_call_and_after meta editedTeam s)) = O.
Proof.
  intros Hsame. unfold update_call_and_after. unfold_prims.
  destruct (ParseInt (Id (st_d s))) as [teamId|perr]; [|reflexivity].
  destruct (Teams_EditTeamByID _ _ _ _ _ _ _) as [team|e]; [|reflexivity].
  change (st_d (tick s)) with (st_d s).
  rewrite Hsame, String.eqb_refl. cbn [negb].
  match goal with
  | |- context [resourceGithubTeamRead meta ?s0] =>
      pose proof (read_no_ldap meta s0) as Hread;
      apply no_ldap_count in Hread;
      destruct (resourceGithubTeamRead meta s0) as [[[x|x|] s2] t2]
  end; cbn [snd] in *; rewrite !count_app, ?count_cons; cbn; lia.
Qed.

Lemma update_call_first teamId :
  ParseInt (Id (st_d s)) = inl teamId ->
  exists o s' t,
    run (update_call_and_after meta editedTeam) s
    = (o, s',
       EvEditTeamByID ctx (owner_id meta) teamId editedTeam false :: t).
Proof.
  intros Hid. unfold run, update_call_and_after. cbv zeta.
  rewrite (bind_Next _ _ s (Id (st_d s)) s [] eq_refl). rewrite Hid.
  rewrite (bind_Next _ _ s _ (tick s)
             [EvEditTeamByID ctx (owner_id meta) teamId editedTeam false]
             eq_refl).
  destruct (_ (tick s)) as [[r s2] t2].
  destruct r; cbn; eauto.
Qed.

Lemma update_call_changed teamId team :
  ParseInt (Id (st_d s)) = inl teamId ->
  Teams_EditTeamByID (v3client meta) (st_clock s) ctx (owner_id meta) teamId
    editedTeam false = ApiOk team ->
  prior_ldap_dn (st_d s) <> ldap_dn (st_d s) ->
  exists o s' t,
    run (update_call_and_after meta editedTeam) s
    = (o, s',
       EvEditTeamByID ctx (owner_id meta) teamId editedTeam false
         :: EvUpdateTeamLDAPMapping ctx (GetID team) (ldap_dn (st_d s))
         :: t).
Proof.
  intros Hid Hedit Hdiff.
  assert (Hne : negb (prior_ldap_dn (st_d s) =? ldap_dn (st_d s))%string
                = true).
  { destruct (String.eqb_spec (prior_ldap_dn (st_d s)) (ldap_dn (st_d s)));
      [contradiction|reflexivity]. }
  unfold run, update_call_and_after. unfold_prims.
  rewrite Hid. fold ctx. rewrite Hedit.
  change (st_d (tick s)) with (st_d s). rewrite Hne.
  destruct (Admin_UpdateTeamLDAPMapping _ _ _ _ _) as [e|].
  - cbn. eauto.
  - match goal with
    | |- context [resourceGithubTeamRead meta ?s0] =>
        destruct (resourceGithubTeamRead meta s0) as [[[x|x|] s2] t2]
    end; cbn; eauto.
Qed.

End UpdateCall.

Lemma update_unchanged_no_ldap meta s :
  prior_ldap_dn (st_d s) = ldap_dn (st_d s) ->
  count is_ldap (snd (resourceGithubTeamUpdate meta s)) = O.
Proof.
  intros Hsame. unfold resourceGithubTeamUpdate.
  cbv beta iota zeta delta [bind checkOrganization pure d_Get return_].
  destruct (org_check meta); [reflexivity|].
  pose proof (update_parent_team_keeps_d meta (team_of_config (st_d s)) s) as Hk.
  pose proof (update_parent_team_no_ldap meta (team_of_config (st_d s)) s) as Hn.
  apply no_ldap_count in Hn.
  destruct (update_parent_team meta (team_of_config (st_d s)) s)
    as [[[team|e|] s1] t1]; cbn [fst snd] in *; try (now rewrite ?app_nil_l).
  pose proof (update_call_unchanged_no_ldap meta s1 team) as Hu.
  rewrite Hk in Hu. specialize (Hu Hsame).
  destruct (update_call_and_after meta team s1) as [[r s2] t2].
  cbn [snd] in *. rewrite !count_app, Hn, Hu. reflexivity.
Qed.

Lemma update_run_after_parent meta s editedTeam s0 t0 :
  org_check meta = None ->
  parent_resolved meta s editedTeam s0 t0 ->
  run (resourceGithubTeamUpdate meta) s
  = (let '(o, s', t') := run (update_call_and_after meta editedTeam) s0 in
     (o, s', t0 ++ t')).
Proof.
  intros Horg Hparent. unfold run, resourceGithubTeamUpdate.
  cbv beta iota zeta delta [bind checkOrganization pure d_Get].
  rewrite Horg, update_parent_team_as_create.
  rewrite (parent_resolved_block _ _ _ _ _ Hparent).
  destruct (update_call_and_after meta editedTeam s0) as [[[x|x|] s'] t'];
    reflexivity.
Qed.

(** Claim C8.  Every run of Update makes at most one edit call and at most
    one LDAP mapping call, and no LDAP mapping call at all when [ldap_dn]
    is what it was at the last read, whatever its value.  With the
    organization check passed, the parent block gone through and a numeric
    identifier, Update makes the edit call right after that block and its
    run holds exactly one edit call; when that call succeeds and [ldap_dn]
    has changed, the LDAP mapping call follows it with the new value, and
    it is the one LDAP mapping call of the run. *)
Theorem update_ldap_only_when_changed
    (meta : Owner) (s : State) (editedTeam : NewTeam) (s0 : State)
    (t0 : list Event) (teamId : Z) :
  org_check meta = None ->
  parent_resolved meta s editedTeam s0 t0 ->
  ParseInt (Id (st_d s)) = inl teamId ->
  let ctx := WithId Background (Id (st_d s)) in
  let edit := EvEditTeamByID ctx (owner_id meta) teamId editedTeam false in
  (forall s',
      let t := snd (run (resourceGithubTeamUpdate meta) s') in
      (count is_edit t <= 1)%nat /\ (count is_ldap t <= 1)%nat /\
      (prior_ldap_dn (st_d s') = ldap_dn (st_d s') -> count is_ldap t = O))
  /\
  (exists o s' t,
      run (resourceGithubTeamUpdate meta) s = (o, s', t0 ++ edit :: t)
      /\ count is_edit (t0 ++ edit :: t) = 1%nat)
  /\
  (forall team,
      Teams_EditTeamByID (v3client meta) (st_clock s0) ctx (owner_id meta)
        teamId editedTeam false = ApiOk team ->
      prior_ldap_dn (st_d s) <> ldap_dn (st_d s) ->
      exists o s' t,
        run (resourceGithubTeamUpdate meta) s
        = (o, s',
           t0 ++ edit :: EvUpdateTeamLDAPMapping ctx (GetID team)
                           (ldap_dn (st_d s)) :: t)
        /\ count is_ldap
             (t0 ++ edit :: EvUpdateTeamLDAPMapping ctx (GetID team)
                              (ldap_dn (st_d s)) :: t) = 1%nat).
Proof.
  intros Horg Hparent Hid. cbv zeta.
  pose proof (update_run_after_parent meta s editedTeam s0 t0 Horg Hparent)
    as Hrun.
  destruct (parent_resolved_quiet meta s editedTeam s0 t0 Hparent)
    as (Hd & _ & He0 & _ & Hl0).
  rewrite <- Hd in Hid.
  split; [|split].
  - intros s'. cbv zeta. rewrite snd_run. repeat split.
    + apply update_one_edit_call.
    + apply update_one_ldap_call.
    + apply update_unchanged_no_ldap.
  - destruct (update_call_first meta s0 editedTeam teamId Hid)
      as (o & s' & t & H).
    rewrite Hd in H. rewrite H in Hrun. exists o, s', t.
    split; [exact Hrun|].
    pose proof (update_call_and_after_one_edit_call meta editedTeam s0) as Hle.
    rewrite <- snd_run, H in Hle. cbn [snd] in Hle.
    rewrite count_cons in Hle. cbn [is_edit] in Hle.
    rewrite count_app, count_cons, He0. cbn [is_edit]. lia.
  - intros team Hedit Hdiff. rewrite <- Hd in Hedit, Hdiff.
    destruct (update_call_changed meta s0 editedTeam teamId team
                Hid Hedit Hdiff) as (o & s' & t & H).
    rewrite Hd in H. rewrite H in Hrun. exists o, s', t.
    split; [exact Hrun|].
    pose proof (update_one_ldap_call meta s) as Hle.
    rewrite <- snd_run, Hrun in Hle. cbn [snd] in Hle.
    rewrite count_app, !count_cons, Hl0 in *. cbn [is_ldap] in *. lia.
Qed.

(** [ldap_dn] has changed: Update makes the edit call, then the LDAP
    mapping call with the new value. *)
Lemma update_ldap_only_when_changed_witness :
  exists o s' t,
    run (resourceGithubTeamUpdate meta_ok) s_ldap
    = (o, s',
       [] ++
       EvEditTeamByID (WithId Background "42") 1 42
         (team_of_config (st_d s_ldap)) false
       :: EvUpdateTeamLDAPMapping (WithId Background "42") 42
            "cn=core,ou=teams"
       :: t)
    /\ count is_ldap
         ([] ++
          EvEditTeamByID (WithId Background "42") 1 42
            (team_of_config (st_d s_ldap)) false
          :: EvUpdateTeamLDAPMapping (WithId Background "42") 42
               "cn=core,ou=teams"
          :: t) = 1%nat.
Proof.
  refine (proj2 (proj2 (update_ldap_only_when_changed meta_ok s_ldap
                          (team_of_config (st_d s_ldap)) s_ldap [] 42
                          eq_refl _ eq_refl))
            team_core eq_refl _).
  - left. repeat split.
  - discriminate.
Defined.

(** ** An identifier that is not a number *)

Section UnconvertibleId.

Variable meta : Owner.
Variable s : State.
Variable perr : error.

Hypothesis org_ok : org_check meta = None.
Hypothesis id_bad : ParseInt (Id (st_d s)) = inr perr.

Let err := UnconvertibleIdErr (Id (st_d s)) perr.
Let p := parent_team_id (st_d s).
Let lookup := fun j => getTeamID_answer meta (st_clock s + j)%nat p.
Let retry := Z.to_nat github_team_api_retry.

Lemma read_unconvertible_id :
  run (resourceGithubTeamRead meta) s = (Returned (Some err), s, []).
Proof.
  unfold run, resourceGithubTeamRead. unfold_prims.
  now rewrite org_ok, id_bad.
Qed.

Lemma delete_unconvertible_id :
  run (resourceGithubTeamDelete meta) s = (Returned (Some err), s, []).
Proof.
  unfold run, resourceGithubTeamDelete. unfold_prims.
  now rewrite org_ok, id_bad.
Qed.

Lemma update_call_unconvertible_id team s1 :
  st_d s1 = st_d s ->
  update_call_and_after meta team s1 = (Return (Some err), s1, []).
Proof.
  intros Hd. unfold update_call_and_after. unfold_prims.
  now rewrite Hd, id_bad.
Qed.

Lemma update_unconvertible_id_no_parent :
  p = "" ->
  run (resourceGithubTeamUpdate meta) s = (Returned (Some err), s, []).
Proof.
  intros Hp. unfold run, resourceGithubTeamUpdate, update_parent_team.
  cbv beta iota zeta delta [bind checkOrganization pure d_Get d_GetOk].
  rewrite org_ok. fold p. rewrite Hp. cbn [String.eqb negb].
  now rewrite update_call_unconvertible_id.
Qed.

Lemma update_unconvertible_id_parent k teamId :
  p <> "" ->
  (k <= retry)%nat ->
  (forall j, (j < k)%nat -> err_of (lookup j) <> None) ->
  lookup k = ApiOk teamId ->
  run (resourceGithubTeamUpdate meta) s
  = (Returned (Some err), ticks (S k) s,
     EvGetTeamID p :: retries k (EvGetTeamID p)).
Proof.
  intros Hp Hk Hfail Hok. unfold run, resourceGithubTeamUpdate.
  cbv beta iota zeta delta [bind checkOrganization pure d_Get].
  rewrite org_ok. rewrite update_parent_team_as_create.
  rewrite (create_parent_team_policy meta s Hp).
  rewrite (parent_retry_policy_recovers _ retry k _ _ teamId Hk).
  - rewrite update_call_unconvertible_id by reflexivity.
    cbn. now rewrite app_nil_r.
  - intros j Hj. rewrite lookup_attempt. now apply Hfail.
  - now rewrite lookup_attempt.
Qed.

(** Claim C10, as the code has it.  With the organization check passed
    and an identifier that [ParseInt] refuses, Read and Delete return the
    unconvertible-id error at once: no remote call, no wait, no write.
    Update does so too when [parent_team_id] is unset.  When it is set,
    Update resolves the parent first and returns the unconvertible-id
    error once a lookup has succeeded, having made the lookups and their
    waits but no edit call and no write. *)
Theorem unconvertible_id_stops_before_the_call :
  run (resourceGithubTeamRead meta) s = (Returned (Some err), s, [])
  /\ run (resourceGithubTeamDelete meta) s = (Returned (Some err), s, [])
  /\ (p = "" ->
      run (resourceGithubTeamUpdate meta) s = (Returned (Some err), s, []))
  /\ (p <> "" ->
      forall k teamId,
        (k <= retry)%nat ->
        (forall j, (j < k)%nat -> err_of (lookup j) <> None) ->
        lookup k = ApiOk teamId ->
        run (resourceGithubTeamUpdate meta) s
        = (Returned (Some err), ticks (S k) s,
           EvGetTeamID p :: retries k (EvGetTeamID p))).
Proof.
  split; [|split; [|split]].
  - apply read_unconvertible_id.
  - apply delete_unconvertible_id.
  - apply update_unconvertible_id_no_parent.
  - intros Hp k teamId. now apply update_unconvertible_id_parent.
Qed.

End UnconvertibleId.

Lemma unconvertible_id_stops_before_the_call_witness :
  run (resourceGithubTeamRead meta_ok) s_slug_id
  = (Returned (Some (UnconvertibleIdErr "core-team"
                       (NumError "core-team" ErrSyntax))), s_slug_id, [])
  /\
  run (resourceGithubTeamUpdate meta_parent_late) s_slug_id_child
  = (Returned (Some (UnconvertibleIdErr "core-team"
                       (NumError "core-team" ErrSyntax))),
     ticks 4 s_slug_id_child,
     EvGetTeamID "platform" :: retries 3 (EvGetTeamID "platform")).
Proof.
  split.
  - apply (proj1 (unconvertible_id_stops_before_the_call meta_ok s_slug_id
                    (NumError "core-team" ErrSyntax) eq_refl eq_refl)).
  - apply (proj2 (proj2 (proj2 (unconvertible_id_stops_before_the_call
                                  meta_parent_late s_slug_id_child
                                  (NumError "core-team" ErrSyntax)
                                  eq_refl eq_refl)))
             ltac:(discriminate) 3%nat 7).
    + vm_compute. lia.
    + intros j Hj. destruct j as [|[|[|j]]]; [discriminate ..|lia].
    + reflexivity.
Defined.

(** Claim C10 as stated does not hold for Update: with an identifier that
    is not a number and a parent that is never found, Update makes its
    eleven lookups with their ten waits and returns the error of the last
    lookup, not an unconvertible-id error. *)
Lemma update_looks_parent_up_before_parsing_id :
  (exists perr, ParseInt (Id (st_d s_slug_id_child)) = inr perr) /\
  run (resourceGithubTeamUpdate meta_parent_never) s_slug_id_child
  = (Returned (Some e_timeout), ticks 11 s_slug_id_child,
     EvGetTeamID "platform" :: retries 10 (EvGetTeamID "platform")) /\
  count is_remote (EvGetTeamID "platform" :: retries 10 (EvGetTeamID "platform"))
  = 11%nat /\
  forall perr, e_timeout <> UnconvertibleIdErr "core-team" perr.
Proof.
  split; [|split; [|split]].
  - eexists. reflexivity.
  - reflexivity.
  - reflexivity.
  - intros perr. discriminate.
Qed.

(** * Further properties *)

(** ** The identifier written is an identifier read *)

Lemma uint_value_ge u : forall n, 0 <= n -> n <= uint_value u n.
Proof.
  induction u as [|u IH|u IH|u IH|u IH|u IH|u IH|u IH|u IH|u IH|u IH];
    intros n Hn; cbn [uint_value]; try lia;
    match goal with
    | |- _ <= uint_value _ ?m => specialize (IH m ltac:(lia)); lia
    end.
Qed.

Lemma ParseUint_loop_digits u :
  forall n,
    0 <= n -> uint_value u n <= maxUint64 ->
    ParseUint_loop (NilEmpty.string_of_uint u) n = inl (uint_value u n).
Proof.
  assert (Hc : uint_cutoff = 1844674407370955162) by reflexivity.
  assert (Hm : maxUint64 = 18446744073709551615) by reflexivity.
  induction u as [|u IH|u IH|u IH|u IH|u IH|u IH|u IH|u IH|u IH|u IH];
    intros n Hn Hmax; cbn [uint_value NilEmpty.string_of_uint ParseUint_loop] in *;
    [reflexivity|..];
    match goal with
    | H : uint_value _ ?m <= _ |- _ =>
        pose proof (uint_value_ge u m ltac:(lia)) as Hge
    end;
    change (digit_of _) with (Some 0) || change (digit_of _) with (Some 1)
    || change (digit_of _) with (Some 2) || change (digit_of _) with (Some 3)
    || change (digit_of _) with (Some 4) || change (digit_of _) with (Some 5)
    || change (digit_of _) with (Some 6) || change (digit_of _) with (Some 7)
    || change (digit_of _) with (Some 8) || change (digit_of _) with (Some 9);
    cbv beta iota zeta;
    (destruct (Z.leb_spec uint_cutoff n); [lia|]);
    match goal with
    | |- context [maxUint64 <? ?m] =>
        destruct (Z.ltb_spec maxUint64 m); [lia|];
        rewrite ?Z.add_0_r; apply IH; lia
    end.
Qed.

Lemma uint_value_of_uint_acc u :
  forall acc, Z.pos (Pos.of_uint_acc u acc) = uint_value u (Z.pos acc).
Proof.
  induction u as [|u IH|u IH|u IH|u IH|u IH|u IH|u IH|u IH|u IH|u IH];
    intros acc; cbn [Pos.of_uint_acc uint_value]; [reflexivity|..];
    rewrite IH; f_equal; lia.
Qed.

Lemma uint_value_of_uint u : Z.of_N (Pos.of_uint u) = uint_value u 0.
Proof.
  induction u as [|u IH|u IH|u IH|u IH|u IH|u IH|u IH|u IH|u IH|u IH];
    cbn [Pos.of_uint uint_value]; [reflexivity|exact IH|..];
    cbn [Z.of_N]; now rewrite uint_value_of_uint_acc.
Qed.

Lemma uint_value_to_uint p : uint_value (Pos.to_uint p) 0 = Z.pos p.
Proof.
  rewrite <- uint_value_of_uint, DecimalPos.Unsigned.of_to. reflexivity.
Qed.

Lemma ParseUint_to_uint p :
  Z.pos p <= maxUint64 ->
  ParseUint (NilEmpty.string_of_uint (Pos.to_uint p)) = inl (Z.pos p).
Proof.
  intros Hmax. pose proof (DecimalPos.Unsigned.to_uint_nonnil p) as Hnil.
  pose proof (ParseUint_loop_digits (Pos.to_uint p) 0 ltac:(lia)) as H.
  rewrite uint_value_to_uint in H. specialize (H Hmax).
  unfold ParseUint. destruct (Pos.to_uint p); [contradiction|exact H ..].
Qed.

(** What [FormatInt] writes for an [int64], [ParseInt] reads back. *)
Lemma ParseInt_FormatInt z : is_int64 z -> ParseInt (FormatInt z) = inl z.
Proof.
  unfold is_int64, FormatInt. intros Hz.
  assert (Hm : maxUint64 = 18446744073709551615) by reflexivity.
  assert (Hi : int_cutoff = 9223372036854775808) by reflexivity.
  destruct z as [|p|p]; [reflexivity|..]; cbn [Z.to_int NilZero.string_of_int].
  - pose proof (ParseUint_to_uint p ltac:(lia)) as H.
    pose proof (DecimalPos.Unsigned.to_uint_nonnil p) as Hnil.
    unfold NilZero.string_of_uint.
    destruct (Pos.to_uint p); [contradiction|..];
      cbn [NilEmpty.string_of_uint] in *; unfold ParseInt;
      cbn [Ascii.eqb Bool.eqb]; cbv beta iota; rewrite H;
      cbn [negb andb];
      (destruct (Z.leb_spec int_cutoff (Z.pos p)); [lia|reflexivity]).
  - pose proof (ParseUint_to_uint p ltac:(lia)) as H.
    pose proof (DecimalPos.Unsigned.to_uint_nonnil p) as Hnil.
    unfold NilZero.string_of_uint.
    assert (Hs : match Pos.to_uint p with
                 | Decimal.Nil => "0"%string
                 | _ => NilEmpty.string_of_uint (Pos.to_uint p)
                 end = NilEmpty.string_of_uint (Pos.to_uint p))
      by (destruct (Pos.to_uint p); [contradiction|reflexivity ..]).
    rewrite Hs. unfold ParseInt. cbn [Ascii.eqb Bool.eqb]. cbv beta iota.
    rewrite H. cbn [negb andb].
    destruct (Z.ltb_spec int_cutoff (Z.pos p)); [lia|reflexivity].
Qed.

(** ** Every way Read can end *)

(** Among the first [n] values of a test there is a first that fails, or
    they all pass. *)
Lemma first_to_fail (P : nat -> bool) n :
  exists k,
    (k <= n)%nat
    /\ (forall j, (j < k)%nat -> P j = true)
    /\ (k = n \/ P k = false).
Proof.
  induction n as [|n (k & Hk & Hbefore & Hstop)].
  - exists O. split; [lia|]. split; [intros j Hj; lia|now left].
  - destruct Hstop as [->|Hstop].
    + destruct (P n) eqn:E.
      * exists (S n). split; [lia|]. split; [|now left].
        intros j Hj. destruct (Nat.eq_dec j n) as [->|Hne]; [exact E|].
        apply Hbefore. lia.
      * exists n. split; [lia|]. split; [exact Hbefore|now right].
    + exists k. split; [lia|]. split; [exact Hbefore|now right].
Qed.

Section ReadOutcomes.

Variable meta : Owner.
Variable s : State.
Variable id : Z.

Hypothesis org_ok : org_check meta = None.
Hypothesis id_ok : ParseInt (Id (st_d s)) = inl id.

Let fetch := fun j =>
  Teams_GetTeamByID (v3client meta) (st_clock s + j)%nat (read_ctx (st_d s))
    (owner_id meta) id.
Let get := EvGetTeamByID (read_ctx (st_d s)) (owner_id meta) id.
Let retry := Z.to_nat github_team_api_retry.

(** Whatever the remote side answers, Read makes one fetch and then [k]
    rounds of one wait and one fetch, with [k] at most
    [github_team_api_retry]; the answers before the [k]-th are errors that
    are retried, and the [k]-th decides how Read ends, in one of four ways.
    It is a team: Read returns nil with the fields of that team written.
    It is not-modified: nil, the state untouched.  It is not-found, and
    then all the retries were made ([k] is [github_team_api_retry]): nil,
    the identifier emptied and nothing else written.  It is another error,
    met at the last retry or not an [ErrorResponse]: Read returns that
    error, the state untouched. *)
Theorem read_outcomes :
  exists k : nat,
    (k <= retry)%nat
    /\ (forall j, (j < k)%nat -> retried (fetch j) = true)
    /\ ((exists team resp,
            fetch k = ApiOk (team, resp)
            /\ run (resourceGithubTeamRead meta) s
               = (Returned None,
                  map_d (read_fields team resp) (ticks (S k) s),
                  get :: retries k get ++ read_writes))
        \/ (exists e,
               fetch k = ApiErr e /\ is_not_modified e = true
               /\ run (resourceGithubTeamRead meta) s
                  = (Returned None, ticks (S k) s, get :: retries k get))
        \/ (exists e,
               fetch k = ApiErr e /\ is_not_found e = true /\ k = retry
               /\ run (resourceGithubTeamRead meta) s
                  = (Returned None, map_d (with_Id "") (ticks (S k) s),
                     get :: retries k get ++ [EvSetId ""]))
        \/ (exists e,
               fetch k = ApiErr e
               /\ is_not_modified e = false /\ is_not_found e = false
               /\ (k = retry \/ asErrorResponse e = None)
               /\ run (resourceGithubTeamRead meta) s
                  = (Returned (Some e), ticks (S k) s,
                     get :: retries k get))).
Proof.
  destruct (first_to_fail (fun j => retried (fetch j)) retry)
    as (k & Hk & Hretry & Hstop).
  exists k. split; [exact Hk|]. split; [exact Hretry|].
  pose proof (read_stops_at meta s id org_ok id_ok k Hk Hretry Hstop) as Hrun.
  fold fetch in Hrun. fold get in Hrun. unfold run. rewrite Hrun.
  destruct (fetch k) as [[team resp]|e] eqn:Hfetch.
  - left. exists team, resp. split; [reflexivity|].
    now rewrite read_finish_ok.
  - right. destruct (is_not_modified e) eqn:H304.
    + left. exists e. split; [reflexivity|]. split; [exact H304|].
      rewrite (read_finish_not_modified e _ H304). cbn.
      now rewrite app_nil_r.
    + right. destruct (is_not_found e) eqn:H404.
      * left. exists e. split; [reflexivity|]. split; [exact H404|].
        assert (k = retry) as Hlast.
        { destruct Hstop as [Hlast|Hstop]; [exact Hlast|].
          cbn in Hstop. rewrite (not_found_retryable e H404) in Hstop.
          discriminate. }
        split; [exact Hlast|].
        now rewrite (read_finish_not_found e _ H404).
      * right. exists e. split; [reflexivity|]. split; [exact H304|].
        split; [exact H404|]. split.
        -- destruct Hstop as [Hlast|Hstop]; [now left|right].
           cbn in Hstop. destruct (not_retryable e Hstop) as [H|H];
             [congruence|exact H].
        -- rewrite (read_finish_error e _ H304 H404). cbn.
           now rewrite app_nil_r.
Qed.

End ReadOutcomes.

(** Three not-found answers, then the team: Read ends at the fourth fetch
    with the fields of that team. *)
Lemma read_outcomes_witness :
  exists k : nat,
    (k <= Z.to_nat github_team_api_retry)%nat
    /\ (forall j, (j < k)%nat ->
          retried (Teams_GetTeamByID (v3client meta_get_404_thrice)
                     (st_clock s_core + j)%nat (read_ctx (st_d s_core))
                     (owner_id meta_get_404_thrice) 42) = true)
    /\ ((exists team resp,
            Teams_GetTeamByID (v3client meta_get_404_thrice)
              (st_clock s_core + k)%nat (read_ctx (st_d s_core))
              (owner_id meta_get_404_thrice) 42 = ApiOk (team, resp)
            /\ run (resourceGithubTeamRead meta_get_404_thrice) s_core
               = (Returned None,
                  map_d (read_fields team resp) (ticks (S k) s_core),
                  EvGetTeamByID (read_ctx (st_d s_core))
                    (owner_id meta_get_404_thrice) 42
                    :: retries k
                         (EvGetTeamByID (read_ctx (st_d s_core))
                            (owner_id meta_get_404_thrice) 42)
                       ++ read_writes))
        \/ (exists e,
               Teams_GetTeamByID (v3client meta_get_404_thrice)
                 (st_clock s_core + k)%nat (read_ctx (st_d s_core))
                 (owner_id meta_get_404_thrice) 42 = ApiErr e
               /\ is_not_modified e = true
               /\ run (resourceGithubTeamRead meta_get_404_thrice) s_core
                  = (Returned None, ticks (S k) s_core,
                     EvGetTeamByID (read_ctx (st_d s_core))
                       (owner_id meta_get_404_thrice) 42
                       :: retries k
                            (EvGetTeamByID (read_ctx (st_d s_core))
                               (owner_id meta_get_404_thrice) 42)))
        \/ (exists e,
               Teams_GetTeamByID (v3client meta_get_404_thrice)
                 (st_clock s_core + k)%nat (read_ctx (st_d s_core))
                 (owner_id meta_get_404_thrice) 42 = ApiErr e
               /\ is_not_found e = true
               /\ k = Z.to_nat github_team_api_retry
               /\ run (resourceGithubTeamRead meta_get_404_thrice) s_core
                  = (Returned None,
                     map_d (with_Id "") (ticks (S k) s_core),
                     EvGetTeamByID (read_ctx (st_d s_core))
                       (owner_id meta_get_404_thrice) 42
                       :: retries k
                            (EvGetTeamByID (read_ctx (st_d s_core))
                               (owner_id meta_get_404_thrice) 42)
                          ++ [EvSetId ""]))
        \/ (exists e,
               Teams_GetTeamByID (v3client meta_get_404_thrice)
                 (st_clock s_core + k)%nat (read_ctx (st_d s_core))
                 (owner_id meta_get_404_thrice) 42 = ApiErr e
               /\ is_not_modified e = false /\ is_not_found e = false
               /\ (k = Z.to_nat github_team_api_retry
                   \/ asErrorResponse e = None)
               /\ run (resourceGithubTeamRead meta_get_404_thrice) s_core
                  = (Returned (Some e), ticks (S k) s_core,
                     EvGetTeamByID (read_ctx (st_d s_core))
                       (owner_id meta_get_404_thrice) 42
                       :: retries k
                            (EvGetTeamByID (read_ctx (st_d s_core))
                               (owner_id meta_get_404_thrice) 42)))).
Proof.
  exact (read_outcomes meta_get_404_thrice s_core 42 eq_refl eq_refl).
Defined.

(** ** Create and Update end with a Read of the identifier they set *)

Lemma read_first_fetch meta s id :
  org_check meta = None ->
  ParseInt (Id (st_d s)) = inl id ->
  exists o s' t,
    run (resourceGithubTeamRead meta) s
    = (o, s', EvGetTeamByID (read_ctx (st_d s)) (owner_id meta) id :: t).
Proof.
  intros org_ok id_ok. unfold run, resourceGithubTeamRead.
  cbv beta iota zeta delta [checkOrganization d_Get GetTeamByID remote].
  rewrite (bind_Next _ _ s (org_check meta) s [] eq_refl). rewrite org_ok.
  rewrite (bind_Next _ _ s (Id (st_d s)) s [] eq_refl). rewrite id_ok.
  rewrite (bind_Next _ _ s (IsNewResource (st_d s)) s [] eq_refl).
  rewrite (bind_Next _ _ s (etag (st_d s)) s [] eq_refl).
  fold (read_ctx (st_d s)).
  rewrite (bind_Next _ _ s _ (tick s)
             [EvGetTeamByID (read_ctx (st_d s)) (owner_id meta) id] eq_refl).
  match goal with
  | |- context [bind ?m ?f (tick s)] =>
      destruct (bind m f (tick s)) as [[r s2] t2]
  end.
  destruct r; cbn; eauto.
Qed.

Section CreateThenRead.

Variable meta : Owner.
Variable s : State.
Variable newTeam : NewTeam.
Variable githubTeam : Team.
Variables s1 s2 : State.
Variables t1 t2 : list Event.

Hypothesis created :
  Teams_CreateTeam (v3client meta) (st_clock s) (owner_name meta) newTeam
  = ApiOk githubTeam.
Hypothesis maintainers : maintainers_done meta s githubTeam s1 t1.
Hypothesis ldap : create_ldap_done meta s githubTeam s1 s2 t2.

Let new_id := FormatInt (GetID githubTeam).
Let s3 := map_d (with_Id new_id) s2.

Lemma create_reaches_read :
  create_call_and_after meta newTeam s
  = (let '(o, s', t') := run (resourceGithubTeamRead meta) s3 in
     (match o with Returned e => Return e | Panicked => Panic end, s',
      EvCreateTeam (owner_name meta) newTeam
        :: t1 ++ t2 ++ EvSetId new_id :: t')).
Proof.
  pose proof (maintainers_done_keeps_d meta s githubTeam _ _ maintainers) as Hd.
  unfold create_call_and_after. unfold_prims.
  rewrite created. change (st_d (tick s)) with (st_d s).
  unfold run, s3, new_id.
  destruct maintainers as [(Hcdm & -> & ->)|(Hcdm & teamSlug & Hslug & Hremove)];
    destruct ldap as [(Hdn & -> & ->)|(Hdn & Hcall & -> & ->)];
    rewrite Hcdm; cbn [negb]; rewrite ?Hslug, ?Hremove;
    change (st_d (tick s)) with (st_d s); rewrite ?Hd.
  - rewrite Hdn. cbn [String.eqb negb].
    destruct (resourceGithubTeamRead meta _) as [[[x|x|] s'] t'];
      cbn; now rewrite ?app_nil_r.
  - destruct (String.eqb_spec (ldap_dn (st_d s)) ""); [contradiction|].
    cbn [negb]. rewrite Hcall.
    destruct (resourceGithubTeamRead meta _) as [[[x|x|] s'] t'];
      cbn; now rewrite ?app_nil_r.
  - rewrite Hdn. cbn [String.eqb negb].
    destruct (resourceGithubTeamRead meta _) as [[[x|x|] s'] t'];
      cbn; now rewrite ?app_nil_r, <- ?app_assoc.
  - destruct (String.eqb_spec (ldap_dn (st_d s)) ""); [contradiction|].
    cbn [negb]. rewrite Hcall.
    destruct (resourceGithubTeamRead meta _) as [[[x|x|] s'] t'];
      cbn; now rewrite ?app_nil_r, <- ?app_assoc.
Qed.

(** Once the create call and the side-effect calls have gone through,
    Create sets the identifier to the decimal writing of the id of the
    created team and ends as the Read run from there ends.  That identifier
    is one Read parses: with the organization check passed, the Read
    begins with a fetch of the created team's id. *)
Theorem create_ends_with_read_of_new_id :
  (exists o s' t',
      run (resourceGithubTeamRead meta) s3 = (o, s', t')
      /\ run (create_call_and_after meta newTeam) s
         = (o, s',
            EvCreateTeam (owner_name meta) newTeam
              :: t1 ++ t2 ++ EvSetId new_id :: t'))
  /\ Id (st_d s3) = new_id
  /\ (is_int64 (GetID githubTeam) ->
      ParseInt (Id (st_d s3)) = inl (GetID githubTeam))
  /\ (is_int64 (GetID githubTeam) -> org_check meta = None ->
      exists o s' t',
        run (resourceGithubTeamRead meta) s3
        = (o, s',
           EvGetTeamByID (read_ctx (st_d s3)) (owner_id meta)
             (GetID githubTeam) :: t')).
Proof.
  split; [|split; [reflexivity|split]].
  - unfold run at 2. rewrite create_reaches_read.
    destruct (run (resourceGithubTeamRead meta) s3) as [[o s'] t'].
    exists o, s', t'. split; [reflexivity|]. now destruct o.
  - intros Hid. now apply ParseInt_FormatInt.
  - intros Hid Horg. apply read_first_fetch; [exact Horg|].
    now apply ParseInt_FormatInt.
Qed.

End CreateThenRead.

Lemma create_ends_with_read_of_new_id_witness :
  exists o s' t',
    run (resourceGithubTeamRead meta_ok)
      {| st_d := with_Id "42" d_core; st_clock := 3 |} = (o, s', t')
    /\ run (create_call_and_after meta_ok (team_of_config d_core)) s_core
       = (o, s',
          EvCreateTeam "acme" (team_of_config d_core)
            :: [EvQueryMembers "core" "acme";
                EvRemoveTeamMembershipBySlug "acme" "core" "octocat"]
               ++ [] ++ EvSetId "42" :: t').
Proof.
  refine (proj1 (create_ends_with_read_of_new_id meta_ok s_core
                   (team_of_config d_core) team_core
                   {| st_d := d_core; st_clock := 3 |}
                   {| st_d := d_core; st_clock := 3 |}
                   [EvQueryMembers "core" "acme";
                    EvRemoveTeamMembershipBySlug "acme" "core" "octocat"]
                   [] eq_refl _ _)).
  - right. split; [reflexivity|]. exists "core". split; reflexivity.
  - left. repeat split.
Defined.

Section UpdateThenRead.

Variable meta : Owner.
Variable s : State.
Variable editedTeam : NewTeam.
Variable teamId : Z.
Variable team : Team.
Variable s2 : State.
Variable t2 : list Event.

Hypothesis id_ok : ParseInt (Id (st_d s)) = inl teamId.

Let ctx := WithId Background (Id (st_d s)).
Let edit := EvEditTeamByID ctx (owner_id meta) teamId editedTeam false.

Hypothesis edited :
  Teams_EditTeamByID (v3client meta) (st_clock s) ctx (owner_id meta) teamId
    editedTeam false = ApiOk team.
Hypothesis ldap : update_ldap_done meta s team s2 t2.

Let new_id := FormatInt (GetID team).
Let s3 := map_d (with_Id new_id) s2.

Lemma update_reaches_read :
  update_call_and_after meta editedTeam s
  = (let '(o, s', t') := run (resourceGithubTeamRead meta) s3 in
     (match o with Returned e => Return e | Panicked => Panic end, s',
      edit :: t2 ++ EvSetId new_id :: t')).
Proof.
  unfold update_call_and_after. unfold_prims.
  rewrite id_ok. fold ctx. rewrite edited.
  change (st_d (tick s)) with (st_d s). unfold run, s3, new_id, edit.
  destruct ldap as [(Hsame & -> & ->)|(Hdiff & Hcall & -> & ->)].
  - rewrite Hsame, String.eqb_refl. cbn [negb].
    destruct (resourceGithubTeamRead meta _) as [[[x|x|] s'] t'];
      cbn; now rewrite ?app_nil_r.
  - destruct (String.eqb_spec (prior_ldap_dn (st_d s)) (ldap_dn (st_d s)));
      [contradiction|].
    cbn [negb st_clock tick]. change (st_d (tick s)) with (st_d s).
    unfold ctx. rewrite Hcall.
    destruct (resourceGithubTeamRead meta _) as [[[x|x|] s'] t'];
      cbn; now rewrite ?app_nil_r.
Qed.

(** Once the edit call (and the LDAP mapping call, when one is due) has
    gone through, Update sets the identifier to the decimal writing of the
    id of the team the edit call returned, whatever the identifier was, and
    ends as the Read run from there ends; with the organization check
    passed, that Read begins with a fetch of the returned team's id. *)
Theorem update_ends_with_read_of_returned_id :
  (exists o s' t',
      run (resourceGithubTeamRead meta) s3 = (o, s', t')
      /\ run (update_call_and_after meta editedTeam) s
         = (o, s', edit :: t2 ++ EvSetId new_id :: t'))
  /\ Id (st_d s3) = new_id
  /\ (is_int64 (GetID team) -> org_check meta = None ->
      exists o s' t',
        run (resourceGithubTeamRead meta) s3
        = (o, s',
           EvGetTeamByID (read_ctx (st_d s3)) (owner_id meta) (GetID team)
             :: t')).
Proof.
  split; [|split; [reflexivity|]].
  - unfold run at 2. rewrite update_reaches_read.
    destruct (run (resourceGithubTeamRead meta) s3) as [[o s'] t'].
    exists o, s', t'. split; [reflexivity|]. now destruct o.
  - intros Hid Horg. apply read_first_fetch; [exact Horg|].
    now apply ParseInt_FormatInt.
Qed.

End UpdateThenRead.

(** ** Update: what a failed call leaves behind *)

Section UpdateFails.

Variable meta : Owner.
Variable s : State.
Variable editedTeam : NewTeam.
Variable teamId : Z.

Hypothesis id_ok : ParseInt (Id (st_d s)) = inl teamId.

Let ctx := WithId Background (Id (st_d s)).
Let edit := EvEditTeamByID ctx (owner_id meta) teamId editedTeam false.

(** From the parse of the identifier on, an edit call that fails makes
    Update return its error after that one call; an LDAP mapping call that
    fails after a successful edit makes Update return its error after those
    two calls.  In both cases nothing is written: the identifier is not set
    again and no Read follows, and the edit already made is not undone. *)
Theorem update_failed_call_returns_error :
  (forall e,
      Teams_EditTeamByID (v3client meta) (st_clock s) ctx (owner_id meta)
        teamId editedTeam false = ApiErr e ->
      run (update_call_and_after meta editedTeam) s
      = (Returned (Some e), tick s, [edit]))
  /\
  (forall team e,
      Teams_EditTeamByID (v3client meta) (st_clock s) ctx (owner_id meta)
        teamId editedTeam false = ApiOk team ->
      prior_ldap_dn (st_d s) <> ldap_dn (st_d s) ->
      Admin_UpdateTeamLDAPMapping (v3client meta) (S (st_clock s)) ctx
        (GetID team) (ldap_dn (st_d s)) = Some e ->
      run (update_call_and_after meta editedTeam) s
      = (Returned (Some e), tick (tick s),
         [edit; EvUpdateTeamLDAPMapping ctx (GetID team) (ldap_dn (st_d s))])).
Proof.
  split.
  - intros e Hedit. unfold run, update_call_and_after. unfold_prims.
    rewrite id_ok. fold ctx. now rewrite Hedit.
  - intros team e Hedit Hdiff Hcall.
    unfold run, update_call_and_after. unfold_prims.
    rewrite id_ok. fold ctx. rewrite Hedit.
    change (st_d (tick s)) with (st_d s).
    destruct (String.eqb_spec (prior_ldap_dn (st_d s)) (ldap_dn (st_d s)));
      [contradiction|].
    cbn [negb st_clock tick]. change (st_d (tick s)) with (st_d s).
    fold ctx. now rewrite Hcall.
Qed.

End UpdateFails.

(** ** Update never detaches a team from its parent *)

Lemma update_edits_keep_parent meta :
  only edit_keeps_parent (resourceGithubTeamUpdate meta).
Proof. only_events. Qed.

(** Every edit call of every run of Update has [removeParent] false.  With
    [parent_team_id] unset, the edit call carries the configured name,
    description and privacy and no parent id: taking the parent out of the
    configuration does not take the team out of its parent. *)
Theorem update_never_removes_parent (meta : Owner) (s : State) :
  Forall (fun e => edit_keeps_parent e = true)
         (snd (run (resourceGithubTeamUpdate meta) s))
  /\
  (forall teamId,
      org_check meta = None ->
      parent_team_id (st_d s) = "" ->
      ParseInt (Id (st_d s)) = inl teamId ->
      exists o s' t,
        run (resourceGithubTeamUpdate meta) s
        = (o, s',
           EvEditTeamByID (WithId Background (Id (st_d s))) (owner_id meta)
             teamId
             {| nt_Name := name (st_d s);
                nt_Description := Some (description (st_d s));
                nt_Privacy := Some (privacy (st_d s));
                nt_ParentTeamID := None |} false :: t)).
Proof.
  split.
  - rewrite snd_run. apply update_edits_keep_parent.
  - intros teamId Horg Hparent Hid.
    destruct (update_call_first meta s (team_of_config (st_d s)) teamId Hid)
      as (o & s' & t & H).
    assert (Hrun : run (resourceGithubTeamUpdate meta) s
                   = run (update_call_and_after meta
                            (team_of_config (st_d s))) s).
    { unfold run, resourceGithubTeamUpdate, update_parent_team.
      cbv beta iota zeta delta [bind checkOrganization pure d_Get d_GetOk].
      rewrite Horg, Hparent. cbn [String.eqb negb].
      destruct (update_call_and_after meta (team_of_config (st_d s)) s)
        as [[[x|x|] s1] t1]; reflexivity. }
    exists o, s', t. rewrite Hrun. exact H.
Qed.

Lemma update_ends_with_read_of_returned_id_witness :
  exists o s' t',
    run (resourceGithubTeamRead meta_edit_moved)
      {| st_d := with_Id "99" d_core; st_clock := 1 |} = (o, s', t')
    /\ run (update_call_and_after meta_edit_moved (team_of_config d_core))
         s_core
       = (o, s',
          EvEditTeamByID (WithId Background "42") 1 42
            (team_of_config d_core) false
            :: [] ++ EvSetId "99" :: t').
Proof.
  refine (proj1 (update_ends_with_read_of_returned_id meta_edit_moved s_core
                   (team_of_config d_core) 42 team_moved
                   {| st_d := d_core; st_clock := 1 |} []
                   eq_refl eq_refl _)).
  left. repeat split.
Defined.

Lemma update_failed_call_returns_error_witness :
  run (update_call_and_after meta_edit_refused (team_of_config d_core)) s_core
  = (Returned (Some e403), tick s_core,
     [EvEditTeamByID (WithId Background "42") 1 42
        (team_of_config d_core) false]).
Proof.
  exact (proj1 (update_failed_call_returns_error meta_edit_refused s_core
                  (team_of_config d_core) 42 eq_refl) e403 eq_refl).
Defined.

Lemma update_never_removes_parent_witness :
  exists o s' t,
    run (resourceGithubTeamUpdate meta_ok) s_core
    = (o, s',
       EvEditTeamByID (WithId Background "42") 1 42
         {| nt_Name := "core"; nt_Description := Some "old";
            nt_Privacy := Some "secret"; nt_ParentTeamID := None |} false
         :: t).
Proof.
  exact (proj2 (update_never_removes_parent meta_ok s_core) 42
           eq_refl eq_refl eq_refl).
Defined.

(** ** The removal of the default maintainers *)

Section RemovalLoop.

Variable client : V3Client.
Variables org teamSlug : string.

Let answer := fun (c : nat) (user : string) =>
  Teams_RemoveTeamMembershipBySlug client c org teamSlug user.
Let removal := EvRemoveTeamMembershipBySlug org teamSlug.

Lemma removal_loop_all l :
  forall s,
    (forall j, (j < List.length l)%nat ->
               answer (st_clock s + j)%nat (nth j l "") = None) ->
    for_each l
      (fun user =>
         err <- RemoveTeamMembershipBySlug client org teamSlug user ;;
         match err with
         | Some e => return_ (Some e)
         | None => pure tt
         end) s
    = (Next tt, ticks (List.length l) s, map removal l).
Proof.
  induction l as [|u l IH]; intros s Hall.
  - cbn. now rewrite ticks_0.
  - pose proof (Hall O ltac:(cbn; lia)) as H0. cbn [nth] in H0.
    rewrite Nat.add_0_r in H0. unfold answer in H0.
    cbn [for_each List.length map].
    rewrite (bind_Next _ _ s tt (tick s) [removal u]).
    2:{ unfold bind, RemoveTeamMembershipBySlug, remote. now rewrite H0. }
    rewrite (IH (tick s)).
    + now rewrite ticks_S.
    + intros j Hj. specialize (Hall (S j) ltac:(cbn; lia)).
      cbn [nth] in Hall. cbn [st_clock tick].
      now replace (S (st_clock s) + j)%nat with (st_clock s + S j)%nat by lia.
Qed.

Lemma removal_loop_fails l :
  forall i s e,
    (i < List.length l)%nat ->
    (forall j, (j < i)%nat ->
               answer (st_clock s + j)%nat (nth j l "") = None) ->
    answer (st_clock s + i)%nat (nth i l "") = Some e ->
    for_each l
      (fun user =>
         err <- RemoveTeamMembershipBySlug client org teamSlug user ;;
         match err with
         | Some e => return_ (Some e)
         | None => pure tt
         end) s
    = (Return (Some e), ticks (S i) s, map removal (firstn (S i) l)).
Proof.
  induction l as [|u l IH]; intros i s e Hi Hbefore Hfail.
  - cbn in Hi. lia.
  - cbn [for_each]. destruct i as [|i].
    + cbn [nth] in Hfail. rewrite Nat.add_0_r in Hfail. unfold answer in Hfail.
      rewrite (bind_Return _ _ s (Some e) (tick s) [removal u]).
      * cbn. now rewrite ticks_S, ticks_0.
      * unfold bind, RemoveTeamMembershipBySlug, remote. now rewrite Hfail.
    + pose proof (Hbefore O ltac:(lia)) as H0. cbn [nth] in H0.
      rewrite Nat.add_0_r in H0. unfold answer in H0.
      rewrite (bind_Next _ _ s tt (tick s) [removal u]).
      2:{ unfold bind, RemoveTeamMembershipBySlug, remote. now rewrite H0. }
      rewrite (IH i (tick s) e).
      * now rewrite (ticks_S (S i)).
      * cbn in Hi. lia.
      * intros j Hj. specialize (Hbefore (S j) ltac:(lia)).
        cbn [nth] in Hbefore. cbn [st_clock tick].
        now replace (S (st_clock s) + j)%nat
          with (st_clock s + S j)%nat by lia.
      * cbn [nth] in Hfail. cbn [st_clock tick].
        now replace (S (st_clock s) + i)%nat
          with (st_clock s + S i)%nat by lia.
Qed.

End RemovalLoop.

Section RemoveDefaultMaintainer.

Variable meta : Owner.
Variable teamSlug : string.
Variable s : State.

Let query := EvQueryMembers teamSlug (owner_name meta).
Let removal := EvRemoveTeamMembershipBySlug (owner_name meta) teamSlug.
Let members :=
  Query_TeamMembers (v4client meta) (st_clock s) teamSlug (owner_name meta).
Let answer := fun (j : nat) (user : string) =>
  Teams_RemoveTeamMembershipBySlug (v3client meta) (S (st_clock s) + j)%nat
    (owner_name meta) teamSlug user.

(** [removeDefaultMaintainer] asks for the members once.  If the query
    fails it returns that error and removes nobody.  Otherwise it removes
    the members in the order of the answer, one call each: when all the
    removals succeed it returns nil; when one fails it returns that error
    at once, and the members after it are not removed. *)
Theorem removeDefaultMaintainer_in_order :
  (forall e,
      members = ApiErr e ->
      removeDefaultMaintainer teamSlug meta s
      = (Return (Some e), tick s, [query]))
  /\
  (forall l,
      members = ApiOk l ->
      (forall j, (j < List.length l)%nat -> answer j (nth j l "") = None) ->
      removeDefaultMaintainer teamSlug meta s
      = (Return None, ticks (S (List.length l)) s, query :: map removal l))
  /\
  (forall l i e,
      members = ApiOk l ->
      (i < List.length l)%nat ->
      (forall j, (j < i)%nat -> answer j (nth j l "") = None) ->
      answer i (nth i l "") = Some e ->
      removeDefaultMaintainer teamSlug meta s
      = (Return (Some e), ticks (S (S i)) s,
         query :: map removal (firstn (S i) l))).
Proof.
  split; [|split].
  - intros e Hq. unfold removeDefaultMaintainer.
    cbv beta iota zeta delta [QueryTeamMembers remote].
    rewrite (bind_Next _ _ s _ (tick s) [query] eq_refl).
    fold members. now rewrite Hq.
  - intros l Hq Hall. unfold removeDefaultMaintainer.
    cbv beta iota zeta delta [QueryTeamMembers remote].
    rewrite (bind_Next _ _ s _ (tick s) [query] eq_refl).
    fold members. rewrite Hq.
    rewrite (bind_Next _ _ (tick s) tt _ _
               (removal_loop_all (v3client meta) (owner_name meta) teamSlug
                  l (tick s) Hall)).
    cbn. now rewrite <- ticks_S, app_nil_r.
  - intros l i e Hq Hi Hbefore Hfail. unfold removeDefaultMaintainer.
    cbv beta iota zeta delta [QueryTeamMembers remote].
    rewrite (bind_Next _ _ s _ (tick s) [query] eq_refl).
    fold members. rewrite Hq.
    rewrite (bind_Return _ _ (tick s) (Some e) _ _
               (removal_loop_fails (v3client meta) (owner_name meta) teamSlug
                  l i (tick s) e Hi Hbefore Hfail)).
    cbn. now rewrite <- (ticks_S (S i)).
Qed.

End RemoveDefaultMaintainer.

Lemma removeDefaultMaintainer_in_order_witness :
  removeDefaultMaintainer "core" meta_second_removal_refused s_core
  = (Return (Some e403), ticks 3 s_core,
     [EvQueryMembers "core" "acme";
      EvRemoveTeamMembershipBySlug "acme" "core" "ann";
      EvRemoveTeamMembershipBySlug "acme" "core" "bob"]).
Proof.
  apply (proj2 (proj2 (removeDefaultMaintainer_in_order
                         meta_second_removal_refused "core" s_core))
           ["ann"; "bob"; "cy"] 1%nat e403 eq_refl).
  - cbn. lia.
  - intros j Hj. destruct j as [|j]; [reflexivity|lia].
  - reflexivity.
Defined.

(** ** The organization check comes first *)

(** When [checkOrganization] returns an error, each of the four operations
    returns it at once: no remote call, no wait, no write. *)
Theorem operations_need_an_organization (meta : Owner) (s : State) (e : error) :
  org_check meta = Some e ->
  run (resourceGithubTeamCreate meta) s = (Returned (Some e), s, [])
  /\ run (resourceGithubTeamRead meta) s = (Returned (Some e), s, [])
  /\ run (resourceGithubTeamUpdate meta) s = (Returned (Some e), s, [])
  /\ run (resourceGithubTeamDelete meta) s = (Returned (Some e), s, []).
Proof.
  intros Horg. repeat split.
  - unfold run, resourceGithubTeamCreate.
    cbv beta iota zeta delta [bind checkOrganization pure return_].
    now rewrite Horg.
  - unfold run, resourceGithubTeamRead.
    cbv beta iota zeta delta [bind checkOrganization pure return_].
    now rewrite Horg.
  - unfold run, resourceGithubTeamUpdate.
    cbv beta iota zeta delta [bind checkOrganization pure return_].
    now rewrite Horg.
  - unfold run, resourceGithubTeamDelete.
    cbv beta iota zeta delta [bind checkOrganization pure return_].
    now rewrite Horg.
Qed.

Lemma operations_need_an_organization_witness :
  run (resourceGithubTeamCreate meta_user) s_core
    = (Returned (Some e_not_org), s_core, [])
  /\ run (resourceGithubTeamRead meta_user) s_core
     = (Returned (Some e_not_org), s_core, [])
  /\ run (resourceGithubTeamUpdate meta_user) s_core
     = (Returned (Some e_not_org), s_core, [])
  /\ run (resourceGithubTeamDelete meta_user) s_core
     = (Returned (Some e_not_org), s_core, []).
Proof.
  exact (operations_need_an_organization meta_user s_core e_not_org eq_refl).
Defined.

(** ** Panics *)

Lemma never_panics_bind {A B} (m : M A) (f : A -> M B) :
  never_panics m -> (forall x, never_panics (f x)) -> never_panics (bind m f).
Proof.
  intros Hm Hf s. unfold bind. specialize (Hm s).
  destruct (m s) as [[[x|e|] s1] t1]; cbn [fst] in *;
    [|discriminate|contradiction].
  specialize (Hf x s1). now destruct (f x s1) as [[r s2] t2].
Qed.

Lemma never_panics_bind_remote {A B} ev (answer : nat -> A) (f : A -> M B) :
  (forall n, never_panics (f (answer n))) ->
  never_panics (bind (remote ev answer) f).
Proof.
  intros Hf s. unfold bind, remote. specialize (Hf (st_clock s) (tick s)).
  now destruct (f (answer (st_clock s)) (tick s)) as [[r s2] t2].
Qed.

Lemma never_panics_call m : never_panics m -> never_panics (call m).
Proof.
  intros Hm s. unfold call. specialize (Hm s).
  destruct (m s) as [[[x|e|] s1] t1]; cbn [fst] in *;
    [discriminate|discriminate|contradiction].
Qed.

Lemma never_panics_for_loop {X} (body : Z -> X -> M (ctl X)) n :
  (forall i x, never_panics (body i x)) ->
  forall i x, never_panics (for_loop n i body x).
Proof.
  intros Hbody. induction n as [|n IH]; intros i x.
  - intros s. discriminate.
  - cbn [for_loop]. apply never_panics_bind; [apply Hbody|].
    intros [x'|x']; [apply IH|intros s; discriminate].
Qed.

Lemma never_panics_for_each {A} (body : A -> M unit) l :
  (forall x, never_panics (body x)) -> never_panics (for_each l body).
Proof.
  intros Hbody. induction l as [|x l IH].
  - intros s. discriminate.
  - cbn [for_each]. apply never_panics_bind; [apply Hbody|]. intros _. apply IH.
Qed.

Lemma run_never_panics m s :
  never_panics m -> fst (fst (run m s)) <> Panicked.
Proof.
  intros Hm. unfold run. specialize (Hm s).
  destruct (m s) as [[[x|e|] s1] t1]; cbn [fst] in *;
    [discriminate|discriminate|contradiction].
Qed.

Ltac calm :=
  cbv beta iota zeta;
  lazymatch goal with
  | |- never_panics (bind _ _) =>
      apply never_panics_bind; [calm | intros ?; calm]
  | |- never_panics (pure _) => intros ?; discriminate
  | |- never_panics (return_ _) => intros ?; discriminate
  | |- never_panics (d_Get _) => intros ?; discriminate
  | |- never_panics (d_GetOk _) => intros ?; discriminate
  | |- never_panics (d_HasChange _ _) => intros ?; discriminate
  | |- never_panics (checkOrganization _) => intros ?; discriminate
  | |- never_panics (d_Set _ _) => intros ?; discriminate
  | |- never_panics (d_SetId _) => intros ?; discriminate
  | |- never_panics (time_Sleep _) => intros ?; discriminate
  | |- never_panics (remote _ _) => intros ?; discriminate
  | |- never_panics (call _) => apply never_panics_call; calm
  | |- never_panics (for_range _ _ _) =>
      apply never_panics_for_loop; intros ? ?; calm
  | |- never_panics (for_each _ _) =>
      apply never_panics_for_each; intros ?; calm
  | |- never_panics (match ?x with _ => _ end) => destruct x; calm
  | |- never_panics ?m =>
      let h := lazymatch m with
               | ?h _ _ _ _ _ _ => h
               | ?h _ _ _ _ _ => h
               | ?h _ _ _ _ => h
               | ?h _ _ _ => h
               | ?h _ _ => h
               | ?h _ => h
               end in
      unfold h; calm
  end.

Lemma read_never_panics meta : never_panics (resourceGithubTeamRead meta).
Proof. calm. Qed.

Lemma update_never_panics meta : never_panics (resourceGithubTeamUpdate meta).
Proof. calm. Qed.

Lemma delete_never_panics meta : never_panics (resourceGithubTeamDelete meta).
Proof. calm. Qed.

Lemma removeDefaultMaintainer_never_panics teamSlug meta :
  never_panics (removeDefaultMaintainer teamSlug meta).
Proof. calm. Qed.

Lemma create_parent_team_never_panics meta t :
  never_panics (create_parent_team meta t).
Proof. calm. Qed.

Lemma create_never_panics_with_slugs meta :
  (forall n org t team,
      Teams_CreateTeam (v3client meta) n org t = ApiOk team ->
      Slug team <> None) ->
  never_panics (resourceGithubTeamCreate meta).
Proof.
  intros Hslug. unfold resourceGithubTeamCreate.
  apply never_panics_bind; [calm|]. intros [e|]; [calm|].
  apply never_panics_bind; [calm|]. intros newTeam.
  apply never_panics_bind; [apply create_parent_team_never_panics|].
  intros newTeam'. unfold create_call_and_after, CreateTeam. cbv zeta.
  apply never_panics_bind_remote. intros n.
  destruct (Teams_CreateTeam (v3client meta) n (owner_name meta) newTeam')
    as [team|e] eqn:E; [|calm].
  specialize (Hslug _ _ _ _ E).
  destruct (Slug team) as [teamSlug|]; [|contradiction].
  pose proof (removeDefaultMaintainer_never_panics teamSlug meta) as Hr.
  pose proof (read_never_panics meta) as Hread.
  apply never_panics_bind; [calm|]. intros cdm.
  apply never_panics_bind.
  - destruct (negb cdm); [|calm].
    apply never_panics_bind; [now apply never_panics_call|].
    intros [e|]; calm.
  - intros _. apply never_panics_bind; [calm|]. intros ldapDN.
    apply never_panics_bind; [calm|]. intros _.
    apply never_panics_bind; [calm|]. intros _.
    apply never_panics_bind; [now apply never_panics_call|].
    intros e. calm.
Qed.

(** Read, Update and Delete never panic.  When every team the create call
    returns has a slug, Create does not panic either.  When the create call
    returns a team without a slug while the default maintainers are to be
    removed, Create panics right after the create call, with the team
    created and nothing written. *)
Theorem create_panics_only_without_slug (meta : Owner) (s : State) :
  fst (fst (run (resourceGithubTeamRead meta) s)) <> Panicked
  /\ fst (fst (run (resourceGithubTeamUpdate meta) s)) <> Panicked
  /\ fst (fst (run (resourceGithubTeamDelete meta) s)) <> Panicked
  /\ ((forall n org t team,
          Teams_CreateTeam (v3client meta) n org t = ApiOk team ->
          Slug team <> None) ->
      fst (fst (run (resourceGithubTeamCreate meta) s)) <> Panicked)
  /\ (forall newTeam team,
         Teams_CreateTeam (v3client meta) (st_clock s) (owner_name meta)
           newTeam = ApiOk team ->
         Slug team = None ->
         create_default_maintainer (st_d s) = false ->
         run (create_call_and_after meta newTeam) s
         = (Panicked, tick s, [EvCreateTeam (owner_name meta) newTeam])).
Proof.
  split; [|split; [|split; [|split]]].
  - apply run_never_panics, read_never_panics.
  - apply run_never_panics, update_never_panics.
  - apply run_never_panics, delete_never_panics.
  - intros Hslug. now apply run_never_panics, create_never_panics_with_slugs.
  - intros newTeam team Hcreated Hslug Hcdm.
    unfold run, create_call_and_after. unfold_prims.
    rewrite Hcreated. change (st_d (tick s)) with (st_d s).
    rewrite Hcdm. cbn [negb]. now rewrite Hslug.
Qed.

Lemma create_panics_only_without_slug_witness :
  run (create_call_and_after meta_no_slug (team_of_config d_core)) s_core
  = (Panicked, tick s_core, [EvCreateTeam "acme" (team_of_config d_core)]).
Proof.
  exact (proj2 (proj2 (proj2 (proj2
           (create_panics_only_without_slug meta_no_slug s_core))))
           (team_of_config d_core) team_no_slug eq_refl eq_refl eq_refl).
Defined.

(** ** Every way Delete can end *)






(** ** Create: calls that are not made *)

Lemma read_no_maintainer_call meta :
  only no_maintainer_call (resourceGithubTeamRead meta).
Proof. only_events. Qed.

Lemma create_parent_team_no_maintainer_call meta t :
  only no_maintainer_call (create_parent_team meta t).
Proof. only_events. Qed.

Lemma create_parent_team_no_ldap meta t :
  only no_ldap (create_parent_team meta t).
Proof. only_events. Qed.

Lemma removeDefaultMaintainer_no_ldap teamSlug meta :
  only no_ldap (removeDefaultMaintainer teamSlug meta).
Proof. only_events. Qed.

Lemma create_call_keeps_maintainers meta newTeam s :
  create_default_maintainer (st_d s) = true ->
  Forall (fun e => no_maintainer_call e = true)
         (snd (create_call_and_after meta newTeam s)).
Proof.
  intros Hcdm. unfold create_call_and_after. unfold_prims.
  destruct (Teams_CreateTeam _ _ _ _) as [team|e]; [|now repeat constructor].
  change (st_d (tick s)) with (st_d s). rewrite Hcdm. cbn [negb].
  change (st_d (tick s)) with (st_d s).
  destruct (negb (ldap_dn (st_d s) =? "")%string).
  - destruct (Admin_UpdateTeamLDAPMapping _ _ _ _ _) as [e|];
      [now repeat constructor|].
    match goal with
    | |- context [resourceGithubTeamRead meta ?s0] =>
        pose proof (read_no_maintainer_call meta s0) as Hread;
        destruct (resourceGithubTeamRead meta s0) as [[[x|x|] s2] t2]
    end; cbn [snd] in *; repeat (apply Forall_app; split);
      repeat constructor; auto.
  - match goal with
    | |- context [resourceGithubTeamRead meta ?s0] =>
        pose proof (read_no_maintainer_call meta s0) as Hread;
        destruct (resourceGithubTeamRead meta s0) as [[[x|x|] s2] t2]
    end; cbn [snd] in *; repeat (apply Forall_app; split);
      repeat constructor; auto.
Qed.

Lemma create_call_without_ldap_dn meta newTeam s :
  ldap_dn (st_d s) = "" ->
  Forall (fun e => no_ldap e = true)
         (snd (create_call_and_after meta newTeam s)).
Proof.
  intros Hdn. unfold create_call_and_after. unfold_prims.
  destruct (Teams_CreateTeam _ _ _ _) as [team|e]; [|now repeat constructor].
  change (st_d (tick s)) with (st_d s).
  destruct (negb (create_default_maintainer (st_d s))).
  - destruct (Slug team) as [teamSlug|]; [|now repeat constructor].
    pose proof (removeDefaultMaintainer_no_ldap teamSlug meta (tick s)) as Hr.
    pose proof (removeDefaultMaintainer_keeps_d teamSlug meta (tick s)) as Hd.
    destruct (removeDefaultMaintainer teamSlug meta (tick s))
      as [[[[e|]|[e|]|] s1] t1]; cbn [fst snd] in *;
      try (repeat (apply Forall_app; split); repeat constructor; now auto).
    + rewrite Hd. change (st_d (tick s)) with (st_d s).
      rewrite Hdn. cbn [String.eqb negb].
      match goal with
      | |- context [resourceGithubTeamRead meta ?s0] =>
          pose proof (read_no_ldap meta s0) as Hread;
          destruct (resourceGithubTeamRead meta s0) as [[[x|x|] s2] t2]
      end; cbn [snd] in *; repeat (apply Forall_app; split);
        repeat constructor; auto.
    + rewrite Hd. change (st_d (tick s)) with (st_d s).
      rewrite Hdn. cbn [String.eqb negb].
      match goal with
      | |- context [resourceGithubTeamRead meta ?s0] =>
          pose proof (read_no_ldap meta s0) as Hread;
          destruct (resourceGithubTeamRead meta s0) as [[[x|x|] s2] t2]
      end; cbn [snd] in *; repeat (apply Forall_app; split);
        repeat constructor; auto.
  - change (st_d (tick s)) with (st_d s).
    rewrite Hdn. cbn [String.eqb negb].
    match goal with
    | |- context [resourceGithubTeamRead meta ?s0] =>
        pose proof (read_no_ldap meta s0) as Hread;
        destruct (resourceGithubTeamRead meta s0) as [[[x|x|] s2] t2]
    end; cbn [snd] in *; repeat (apply Forall_app; split);
      repeat constructor; auto.
Qed.

Lemma no_maintainer_call_counts t :
  Forall (fun e => no_maintainer_call e = true) t ->
  count is_query t = O /\ count is_removal t = O.
Proof.
  intros H. split.
  - apply (count_none is_query no_maintainer_call _ H).
    intros e. unfold no_maintainer_call. now destruct (is_query e).
  - apply (count_none is_removal no_maintainer_call _ H).
    intros e. unfold no_maintainer_call.
    now destruct (is_query e), (is_removal e).
Qed.

(** A run of Create with [create_default_maintainer] set makes no
    membership query and no removal call; a run with [ldap_dn] empty makes
    no LDAP mapping call. *)
Theorem create_skips_calls_not_asked_for (meta : Owner) (s : State) :
  (create_default_maintainer (st_d s) = true ->
   count is_query (snd (run (resourceGithubTeamCreate meta) s)) = O
   /\ count is_removal (snd (run (resourceGithubTeamCreate meta) s)) = O)
  /\
  (ldap_dn (st_d s) = "" ->
   count is_ldap (snd (run (resourceGithubTeamCreate meta) s)) = O).
Proof.
  rewrite snd_run. unfold resourceGithubTeamCreate.
  cbv beta iota zeta delta [bind checkOrganization pure d_Get return_].
  pose proof (create_parent_team_keeps_d meta (team_of_config (st_d s)) s) as Hk.
  pose proof (create_parent_team_no_maintainer_call meta
                (team_of_config (st_d s)) s) as Hm.
  pose proof (create_parent_team_no_ldap meta (team_of_config (st_d s)) s) as Hl.
  split.
  - intros Hcdm. apply no_maintainer_call_counts.
    destruct (org_check meta); [constructor|].
    destruct (create_parent_team meta (team_of_config (st_d s)) s)
      as [[[team|e|] s1] t1]; cbn [fst snd] in *; auto.
    pose proof (create_call_keeps_maintainers meta team s1) as Hc.
    rewrite Hk in Hc. specialize (Hc Hcdm).
    destruct (create_call_and_after meta team s1) as [[r s2] t2].
    cbn [snd] in *. repeat (apply Forall_app; split); auto.
  - intros Hdn. apply no_ldap_count.
    destruct (org_check meta); [constructor|].
    destruct (create_parent_team meta (team_of_config (st_d s)) s)
      as [[[team|e|] s1] t1]; cbn [fst snd] in *; auto.
    pose proof (create_call_without_ldap_dn meta team s1) as Hc.
    rewrite Hk in Hc. specialize (Hc Hdn).
    destruct (create_call_and_after meta team s1) as [[r s2] t2].
    cbn [snd] in *. repeat (apply Forall_app; split); auto.
Qed.

Lemma create_skips_calls_not_asked_for_witness :
  count is_ldap (snd (run (resourceGithubTeamCreate meta_ok) s_core)) = O.
Proof.
  exact (proj2 (create_skips_calls_not_asked_for meta_ok s_core) eq_refl).
Defined.

(** ** The schema and the writes *)

Lemma read_writes_declared meta :
  only declared_write (resourceGithubTeamRead meta).
Proof. only_events. Qed.

Lemma create_writes_declared meta :
  only declared_write (resourceGithubTeamCreate meta).
Proof. only_events. Qed.

Lemma update_writes_declared meta :
  only declared_write (resourceGithubTeamUpdate meta).
Proof. only_events. Qed.

Lemma delete_writes_declared meta :
  only declared_write (resourceGithubTeamDelete meta).
Proof. only_events. Qed.

(** Every [d.Set] of every run of the four operations is on a key the
    schema declares.  The writes of a Read that fetched a team cover every
    key of the schema but [create_default_maintainer], which the remote
    side does not hold. *)
Theorem writes_stay_within_schema (meta : Owner) (s : State) :
  Forall (fun e => declared_write e = true)
         (snd (run (resourceGithubTeamCreate meta) s))
  /\ Forall (fun e => declared_write e = true)
            (snd (run (resourceGithubTeamRead meta) s))
  /\ Forall (fun e => declared_write e = true)
            (snd (run (resourceGithubTeamUpdate meta) s))
  /\ Forall (fun e => declared_write e = true)
            (snd (run (resourceGithubTeamDelete meta) s))
  /\ (forall team resp key,
         In key schema_keys ->
         key <> "create_default_maintainer" ->
         In (EvSet key) (snd (read_finish (ApiOk (team, resp)) s))).
Proof.
  rewrite !snd_run. split; [|split; [|split; [|split]]].
  - apply create_writes_declared.
  - apply read_writes_declared.
  - apply update_writes_declared.
  - apply delete_writes_declared.
  - intros team resp key Hin Hne. rewrite read_finish_ok. cbn [snd].
    cbn in Hin.
    repeat (destruct Hin as [<- | Hin];
            [first [contradiction | cbn; tauto]|]).
    contradiction.
Qed.

Lemma writes_stay_within_schema_witness :
  In (EvSet "slug") (snd (read_finish (ApiOk (team_core, resp_core)) s_core)).
Proof.
  apply (proj2 (proj2 (proj2 (proj2
           (writes_stay_within_schema meta_ok s_core))))
           team_core resp_core "slug").
  - cbn. tauto.
  - discriminate.
Defined.

(** ** A Read that fetched a team overwrites what was read before *)

Lemma read_fields_last_wins team team' resp resp' d :
  read_fields team resp (read_fields team' resp' d) = read_fields team resp d.
Proof. destruct d. reflexivity. Qed.

(** The end of Read on a fetched team writes every field it takes from the
    remote side: done after another such read it leaves the state it would
    have left without it, so nothing of an earlier read survives, and done
    twice it changes nothing the second time.  The identifier, the
    new-resource flag and [create_default_maintainer] are left as they
    were. *)
Theorem read_overwrites_every_remote_field
    (team team' : Team) (resp resp' : Response) (s : State) :
  let s1 := snd (fst (read_finish (ApiOk (team', resp')) s)) in
  let s2 := snd (fst (read_finish (ApiOk (team, resp)) s1)) in
  st_d s2 = st_d (snd (fst (read_finish (ApiOk (team, resp)) s)))
  /\ read_finish (ApiOk (team, resp)) s2 = (Return None, s2, read_writes)
  /\ Id (st_d s2) = Id (st_d s)
  /\ IsNewResource (st_d s2) = IsNewResource (st_d s)
  /\ create_default_maintainer (st_d s2) = create_default_maintainer (st_d s).
Proof.
  cbv zeta. repeat (rewrite !read_finish_ok; cbn [fst snd]).
  unfold map_d. cbn [st_d st_clock].
  rewrite !read_fields_last_wins.
  split; [reflexivity|]. split; [reflexivity|].
  destruct (st_d s). split; [reflexivity|]. split; reflexivity.
Qed.

(** ** Identifiers: what is written and what is read *)

Lemma ParseUint_loop_ge s :
  forall n v, 0 <= n -> ParseUint_loop s n = inl v -> n <= v.
Proof.
  induction s as [|c s IH]; intros n v Hn H; cbn [ParseUint_loop] in H.
  - injection H as <-. lia.
  - destruct (digit_of c) as [d|] eqn:Hd; [|discriminate].
    assert (0 <= d).
    { unfold digit_of in Hd.
      destruct ((48 <=? Z.of_N (N_of_ascii c))
                && (Z.of_N (N_of_ascii c) <=? 57))%bool eqn:E; [|discriminate].
      injection Hd as <-. apply andb_prop in E. destruct E as [E _].
      apply Z.leb_le in E. lia. }
    destruct (uint_cutoff <=? n); [discriminate|].
    cbv zeta in H. destruct (maxUint64 <? n * 10 + d); [discriminate|].
    apply IH in H; lia.
Qed.

(** The identifiers the operations accept are the decimal writings of the
    [int64] values: what [ParseInt] returns is an [int64], and the string
    [FormatInt] writes for an [int64] is parsed back to it. *)
Theorem identifier_round_trip :
  (forall s z, ParseInt s = inl z -> is_int64 z)
  /\ (forall z, is_int64 z -> ParseInt (FormatInt z) = inl z).
Proof.
  split; [|exact ParseInt_FormatInt].
  assert (Hi : int_cutoff = 9223372036854775808) by reflexivity.
  intros s z H. unfold ParseInt in H.
  destruct s as [|c rest]; [discriminate|].
  destruct (if Ascii.eqb c "+"
            then (false, rest)
            else if Ascii.eqb c "-" then (true, rest)
                 else (false, String c rest)) as [neg s'].
  destruct (ParseUint s') as [un|[|]] eqn:Hu; try discriminate.
  assert (0 <= un).
  { unfold ParseUint in Hu. destruct s'; [discriminate|].
    apply ParseUint_loop_ge in Hu; lia. }
  unfold is_int64.
  destruct neg; cbn [negb andb] in H.
  - destruct (Z.ltb_spec int_cutoff un); [discriminate|].
    injection H as <-. lia.
  - destruct (Z.leb_spec int_cutoff un); [discriminate|].
    injection H as <-. lia.
Qed.

Lemma identifier_round_trip_witness :
  is_int64 42 /\ ParseInt (FormatInt (- 9223372036854775808))
                 = inl (- 9223372036854775808).
Proof.
  split.
  - apply (proj1 identifier_round_trip "42" 42). reflexivity.
  - apply (proj2 identifier_round_trip (- 9223372036854775808)).
    unfold is_int64. lia.
Defined.

(** ** Every way the parent block can end *)

Lemma parent_retry_policy_cases {A} (answer : nat -> api_result A) n :
  forall c r,
    match parent_retry_policy answer n c r with
    | (ApiOk _, k) => (k <= n)%nat
    | (ApiErr _, k) => k = n
    end.
Proof.
  induction n as [|n IH]; intros c r.
  - cbn. destruct r; lia.
  - cbn [parent_retry_policy]. destruct r as [x|e]; [lia|].
    specialize (IH (S c) (answer c)).
    destruct (parent_retry_policy answer n (S c) (answer c)) as [[x|e'] k];
      lia.
Qed.

(** Whatever the lookups answer, the parent block of Create, and that of
    Update with it, ends in one of three ways.  With [parent_team_id] unset
    it makes no call and keeps the team without parent.  With it set it
    makes one lookup and then [k] rounds of one wait and one lookup, [k] at
    most [github_team_api_retry], the lookups before the [k]-th having
    failed; when the [k]-th lookup finds an id the block goes on with that
    id as parent, and when it fails, which happens only after all the
    retries, the block returns the error of that last lookup. *)
Theorem parent_block_outcomes (meta : Owner) (s : State) (newTeam : NewTeam) :
  let p := parent_team_id (st_d s) in
  let retry := Z.to_nat github_team_api_retry in
  let lookup := fun j => getTeamID_answer meta (st_clock s + j)%nat p in
  update_parent_team meta newTeam s = create_parent_team meta newTeam s
  /\ (p = "" -> create_parent_team meta newTeam s = (Next newTeam, s, []))
  /\ (p <> "" ->
      exists k,
        (k <= retry)%nat
        /\ (forall j, (j < k)%nat -> failed (lookup j) = true)
        /\ ((exists teamId,
                lookup k = ApiOk teamId
                /\ create_parent_team meta newTeam s
                   = (Next (with_ParentTeamID teamId newTeam), ticks (S k) s,
                      EvGetTeamID p :: retries k (EvGetTeamID p)))
            \/ (exists e,
                   lookup k = ApiErr e /\ k = retry
                   /\ create_parent_team meta newTeam s
                      = (Return (Some e), ticks (S k) s,
                         EvGetTeamID p :: retries k (EvGetTeamID p))))).
Proof.
  cbv zeta. split; [apply update_parent_team_as_create|split].
  - intros Hp. unfold create_parent_team.
    cbv beta iota zeta delta [bind d_GetOk pure]. now rewrite Hp.
  - intros Hp.
    destruct (first_to_fail
                (fun j => failed (getTeamID_answer meta (st_clock s + j)%nat
                                    (parent_team_id (st_d s))))
                (Z.to_nat github_team_api_retry))
      as (k & Hk & Hfail & Hstop).
    assert (Herr : forall j, (j < k)%nat ->
              err_of (getTeamID_answer meta (st_clock s + j)%nat
                        (parent_team_id (st_d s))) <> None).
    { intros j Hj. specialize (Hfail j Hj).
      destruct (getTeamID_answer meta (st_clock s + j)%nat
                  (parent_team_id (st_d s))); [discriminate|].
      cbn. discriminate. }
    exists k. split; [exact Hk|]. split; [exact Hfail|].
    rewrite (create_parent_team_policy meta s Hp).
    destruct (getTeamID_answer meta (st_clock s + k)%nat
                (parent_team_id (st_d s))) as [teamId|e] eqn:Hlook.
    + left. exists teamId. split; [reflexivity|].
      rewrite (parent_retry_policy_recovers _ _ k _ _ teamId Hk).
      * reflexivity.
      * intros j Hj. rewrite lookup_attempt. now apply Herr.
      * now rewrite lookup_attempt.
    + right. exists e. split; [reflexivity|].
      assert (k = Z.to_nat github_team_api_retry) as Hlast.
      { destruct Hstop as [Hlast|Hstop]; [exact Hlast|discriminate]. }
      split; [exact Hlast|]. subst k.
      rewrite parent_retry_policy_exhausts.
      * now rewrite lookup_attempt, Hlook.
      * intros j Hj. rewrite lookup_attempt. now apply Herr.
Qed.

(** The parent is found at the fourth lookup. *)
Lemma parent_block_outcomes_witness :
  exists k,
    (k <= Z.to_nat github_team_api_retry)%nat
    /\ (forall j, (j < k)%nat ->
          failed (getTeamID_answer meta_parent_late (st_clock s_child + j)%nat
                    (parent_team_id (st_d s_child))) = true)
    /\ ((exists teamId,
            getTeamID_answer meta_parent_late (st_clock s_child + k)%nat
              (parent_team_id (st_d s_child)) = ApiOk teamId
            /\ create_parent_team meta_parent_late (team_of_config d_core)
                 s_child
               = (Next (with_ParentTeamID teamId (team_of_config d_core)),
                  ticks (S k) s_child,
                  EvGetTeamID (parent_team_id (st_d s_child))
                    :: retries k
                         (EvGetTeamID (parent_team_id (st_d s_child)))))
        \/ (exists e,
               getTeamID_answer meta_parent_late (st_clock s_child + k)%nat
                 (parent_team_id (st_d s_child)) = ApiErr e
               /\ k = Z.to_nat github_team_api_retry
               /\ create_parent_team meta_parent_late
                    (team_of_config d_core) s_child
                  = (Return (Some e), ticks (S k) s_child,
                     EvGetTeamID (parent_team_id (st_d s_child))
                       :: retries k
                            (EvGetTeamID (parent_team_id (st_d s_child)))))).
Proof.
  apply (proj2 (proj2 (parent_block_outcomes meta_parent_late s_child
                         (team_of_config d_core)))).
  discriminate.
Defined.

(** ** Create: a create call that fails *)

(** With the organization check passed and no parent to resolve, a create
    call that fails makes Create return its error after that one call:
    no membership query, no LDAP mapping call, no Read, and nothing
    written, the identifier included. *)
Theorem create_call_failure (meta : Owner) (s : State) (e : error) :
  org_check meta = None ->
  parent_team_id (st_d s) = "" ->
  Teams_CreateTeam (v3client meta) (st_clock s) (owner_name meta)
    (team_of_config (st_d s)) = ApiErr e ->
  run (resourceGithubTeamCreate meta) s
  = (Returned (Some e), tick s,
     [EvCreateTeam (owner_name meta)
        {| nt_Name := name (st_d s);
           nt_Description := Some (description (st_d s));
           nt_Privacy := Some (privacy (st_d s));
           nt_ParentTeamID := None |}]).
Proof.
  intros Horg Hp Hcreate.
  unfold run, resourceGithubTeamCreate, create_parent_team,
    create_call_and_after.
  unfold_prims. rewrite Horg, Hp. cbn [String.eqb negb].
  fold (team_of_config (st_d s)). now rewrite Hcreate.
Qed.

Lemma create_call_failure_witness :
  run (resourceGithubTeamCreate meta_create_refused) s_core
  = (Returned (Some e403), tick s_core,
     [EvCreateTeam "acme"
        {| nt_Name := "core"; nt_Description := Some "old";
           nt_Privacy := Some "secret"; nt_ParentTeamID := None |}]).
Proof.
  exact (create_call_failure meta_create_refused s_core e403
           eq_refl eq_refl eq_refl).
Defined.
